(** * tgnotipy: a shallow embedding of [tgnoti.py] and its properties

    The notifier sends a text message to every registered Telegram chat and
    discovers new chats from inbound updates.  Python integers are [Z],
    Python strings are [string], the insertion-ordered dict
    [registered_chats] is an association list with unique keys, and the
    effects of the program (HTTP requests, logger calls, file probes, file
    writes, mutation of the notifier object) are threaded through a small
    reader/state/exception monad. *)

From Stdlib Require Import ZArith List String Ascii Bool Lia DecimalString.
Import ListNotations.
Open Scope string_scope.
Open Scope Z_scope.

(** ** Python values *)

(** [str(n)] for a Python int. *)
Definition str_of_int (n : Z) : string := NilZero.string_of_int (Z.to_int n).

(** The newline character of the format strings. *)
Definition nl : string := String (ascii_of_nat 10) EmptyString.

(** [sep.join(words)] *)
Fixpoint str_join (sep : string) (words : list string) : string :=
  match words with
  | [] => ""
  | [w] => w
  | w :: ws => w ++ sep ++ str_join sep ws
  end.

(** Keys of [registered_chats].  A registry loaded from the JSON config file
    has [str] keys; [get_recent_chats] inserts [chat['id']], an [int].
    Python keeps a [str] and an [int] apart as dict keys. *)
Inductive chat_key : Type :=
| KStr (s : string)
| KInt (z : Z).

Definition key_eqb (a b : chat_key) : bool :=
  match a, b with
  | KStr s, KStr t => String.eqb s t
  | KInt x, KInt y => Z.eqb x y
  | _, _ => false
  end.

(** An insertion-ordered dict from chat keys to display names. *)
Definition dict : Type := list (chat_key * string).

Definition dict_keys (d : dict) : list chat_key := map fst d.

Fixpoint dict_get (d : dict) (k : chat_key) : option string :=
  match d with
  | [] => None
  | (k', v') :: d' => if key_eqb k' k then Some v' else dict_get d' k
  end.

Definition dict_mem (d : dict) (k : chat_key) : bool :=
  match dict_get d k with Some _ => true | None => false end.

(** [d[k] = v]: an existing key keeps its position and takes the new value,
    a new key is appended. *)
Fixpoint dict_set (d : dict) (k : chat_key) (v : string) : dict :=
  match d with
  | [] => [(k, v)]
  | (k', v') :: d' =>
      if key_eqb k' k then (k', v) :: d' else (k', v') :: dict_set d' k v
  end.

(** [d.update(other)]: assigns the items of [other] in its iteration order. *)
Definition dict_update (d other : dict) : dict :=
  fold_left (fun acc kv => dict_set acc (fst kv) (snd kv)) other d.

(** ** Telegram data *)

Record chat : Type := mk_chat {
  chat_id : Z;
  first_name : option string;
  last_name : option string;
  username : option string
}.

Record photo_size : Type := mk_photo_size {
  ps_file_id : string;
  ps_width : Z;
  ps_height : Z
}.

Record message : Type := mk_message {
  msg_chat : chat;
  msg_photo : option (list photo_size)
}.

Record update : Type := mk_update {
  update_id : Z;
  upd_message : option message
}.

(** ** Requests and responses *)

Inductive http_verb : Type := GET | POST.

(** The [data] dicts the program builds, one constructor per shape. *)
Inductive payload : Type :=
| SendMessage (chat_id : chat_key) (text : string) (parse_mode : string)
    (disable_notification : bool)
| GetUpdates (offset limit timeout : Z) (allowed_updates : list string)
| GetFile (file_id : option string).

Record request : Type := mk_request {
  req_verb : http_verb;
  req_url : string;
  req_data : option payload
}.

(** What [res.json()] can decode to, as far as the program looks into it. *)
Inductive json_value : Type :=
| JUpdates (result : list update)
| JFile (file_path : string)
| JOther.

Record http_response : Type := mk_response {
  status_code : Z;
  res_json : option json_value;   (* [None]: the body is not JSON *)
  res_content : string
}.

(** [requests.get] / [requests.post] either raise or hand back a response. *)
Inductive net_result : Type :=
| NetError
| NetResponse (res : http_response).

(** ** Exceptions *)

Inductive exn : Type :=
| TGException (msg : string)
| JSONDecodeError
| KeyError (key : string)
| TypeError
| AssertionError
| ImportError
| OSError.

Inductive result (A : Type) : Type :=
| Ok (a : A)
| Raise (e : exn).
Arguments Ok {A} a.
Arguments Raise {A} e.

(** ** The environment and the observable effects *)

(** What [from xdg import BaseDirectory] comes to: the module is not
    installed ([ModuleNotFoundError]), the import raises something else (an
    [ImportError] when another package is named [xdg]), or it gives
    [BaseDirectory], whose [save_config_path] returns the directory it made
    sure exists or raises (an [OSError] when it cannot create it). *)
Inductive xdg_module : Type :=
| ModuleNotFound
| ImportFails (x : exn)
| BaseDirectory (save_config_path : string -> result string).

(** What the program asks of its surroundings.  [net k r] is the answer to
    request [r] when [k] requests were issued before it; [writable p] tells
    whether [open(p, 'w')] (or ['wb']) and the write that follows succeed. *)
Record env : Type := mk_env {
  script_path : string;
  path_join : string -> string -> string;
  isfile : string -> bool;
  writable : string -> bool;
  xdg_import : xdg_module;
  gethostname : string;
  splitext : string -> string * string;
  net : nat -> request -> net_result
}.

Inductive loglevel : Type := DEBUG | INFO | WARNING | ERROR.

(** Effects in the order they happened: requests sent, logger calls, paths
    asked of [os.path.isfile], files written, and directories
    [save_config_path] made sure exist (creating them when missing). *)
Record io : Type := mk_io {
  sent : list request;
  logged : list (loglevel * string);
  probed : list string;
  written : list (string * string);
  ensured : list string
}.

Definition io0 : io := mk_io [] [] [] [] [].

(** ** The monad

    [S] is the mutable object a method works on ([TGNotifier] for the
    methods, anything for module-level functions).  A raised exception keeps
    the state reached so far, as in Python. *)
Definition M (S A : Type) : Type := env -> S -> io -> result A * S * io.

Definition ret {S A} (a : A) : M S A := fun _ s w => (Ok a, s, w).

Definition bind {S A B} (m : M S A) (f : A -> M S B) : M S B :=
  fun e s w =>
    match m e s w with
    | (Ok a, s', w') => f a e s' w'
    | (Raise x, s', w') => (Raise x, s', w')
    end.

Definition raise {S A} (x : exn) : M S A := fun _ s w => (Raise x, s, w).

(** [try: m except TGException as e: h(e) else: k(a)] *)
Definition try_except_TG {S A B} (m : M S A) (h : string -> M S B)
  (k : A -> M S B) : M S B :=
  fun e s w =>
    match m e s w with
    | (Ok a, s', w') => k a e s' w'
    | (Raise (TGException msg), s', w') => h msg e s' w'
    | (Raise x, s', w') => (Raise x, s', w')
    end.

Definition ask {S} : M S env := fun e s w => (Ok e, s, w).
Definition get_self {S} : M S S := fun _ s w => (Ok s, s, w).
Definition put_self {S} (s : S) : M S unit := fun _ _ w => (Ok tt, s, w).

Definition log {S} (lvl : loglevel) (msg : string) : M S unit :=
  fun _ s w =>
    (Ok tt, s,
     mk_io (sent w) (logged w ++ [(lvl, msg)]) (probed w) (written w)
       (ensured w)).

Definition os_path_isfile {S} (p : string) : M S bool :=
  fun e s w =>
    (Ok (isfile e p), s,
     mk_io (sent w) (logged w) (probed w ++ [p]) (written w) (ensured w)).

(** [with open(p, 'w') as f: f.write(content)]; when the file cannot be
    opened or written, [OSError] is raised and nothing is written. *)
Definition write_file {S} (p content : string) : M S unit :=
  fun e s w =>
    if writable e p then
      (Ok tt, s,
       mk_io (sent w) (logged w) (probed w) (written w ++ [(p, content)])
         (ensured w))
    else (Raise OSError, s, w).

(** [BaseDirectory.save_config_path(resource)] *)
Definition xdg_save_config_path {S} (save_config_path : string -> result string)
  (resource : string) : M S string :=
  fun _ s w =>
    match save_config_path resource with
    | Ok dir =>
        (Ok dir, s,
         mk_io (sent w) (logged w) (probed w) (written w) (ensured w ++ [dir]))
    | Raise x => (Raise x, s, w)
    end.

(** [requests.get(url, data=...)] / [requests.post(url, data=...)] *)
Definition http {S} (v : http_verb) (url : string) (data : option payload)
  : M S net_result :=
  fun e s w =>
    let r := mk_request v url data in
    (Ok (net e (List.length (sent w)) r), s,
     mk_io (sent w ++ [r]) (logged w) (probed w) (written w) (ensured w)).

Declare Scope monad_scope.
Delimit Scope monad_scope with monad.
Notation "x <- m ;; k" := (bind m (fun x => k))
  (at level 61, m at next level, right associativity) : monad_scope.
Notation "m ;;; k" := (bind m (fun _ => k))
  (at level 61, right associativity) : monad_scope.
Open Scope monad_scope.

(** ** Module-level functions *)

(** The warning of [get_config_file_path] when both config files exist. *)
Definition two_configs_warning (config_at_xdg_path config_at_script_path : string)
  : string :=
  "Found two config files:" ++ nl ++ "  " ++ config_at_xdg_path ++ nl
  ++ "and" ++ nl ++ "  " ++ config_at_script_path ++ nl
  ++ "The latter is used. Delete it or explicitly specify the config to use the other one.".

(** [get_config_file_path(config_file_path)] *)
Definition get_config_file_path {S} (config_file_path : option string)
  : M S string :=
  match config_file_path with
  | Some p => ret p
  | None =>
      let config_file_name := "config.json" in
      let prog_name := "tgnotipy" in
      e <- ask ;;
      let config_at_script_path := path_join e (script_path e) config_file_name in
      is_config_at_script <- os_path_isfile config_at_script_path ;;
      (* try: ... except ModuleNotFoundError: pass *)
      xdg <- match xdg_import e with
             | BaseDirectory save_config_path =>
                 xdg_path <- xdg_save_config_path save_config_path prog_name ;;
                 let config_at_xdg_path :=
                   path_join e xdg_path config_file_name in
                 b <- os_path_isfile config_at_xdg_path ;;
                 ret (Some config_at_xdg_path, b)
             | ModuleNotFound => ret (None, false)
             | ImportFails x => raise x
             end ;;
      let config_at_xdg_path : option string := fst xdg in
      let is_config_at_xdg : bool := snd xdg in
      if is_config_at_xdg && is_config_at_script then
        log WARNING
          (two_configs_warning
             match config_at_xdg_path with Some p => p | None => "None" end
             config_at_script_path) ;;;
        ret config_at_script_path
      else if is_config_at_script then ret config_at_script_path
      else if is_config_at_xdg then
        (* [is_config_at_xdg] is only set together with the path *)
        ret match config_at_xdg_path with
            | Some p => p
            | None => config_at_script_path
            end
      else
        match config_at_xdg_path with
        | Some p => ret p
        | None => ret config_at_script_path
        end
  end.

(** [checked_get_request(full_url, data=None)] *)
Definition checked_get_request {S} (full_url : string) (data : option payload)
  : M S http_response :=
  r <- http GET full_url data ;;
  match r with
  | NetError => raise (TGException "Request failed critically (no internet?)")
  | NetResponse res =>
      if negb (status_code res =? 200) then
        raise (TGException
                 ("Request failed with status code " ++ str_of_int (status_code res)))
      else ret res
  end.

(** [res.json()] *)
Definition response_json {S} (res : http_response) : M S json_value :=
  match res_json res with
  | Some j => ret j
  | None => raise JSONDecodeError
  end.

(** ** class TGNotifier *)

Record TGNotifier : Type := mk_TGNotifier {
  config_file_path : string;
  api_key : string;
  bot_url : string;
  last_update_id : Z;
  registered_chats : dict
}.

(** [TGNotifier.__init__(api_key, config_file_path, registered_chats)] *)
Definition TGNotifier_init (api_key config_file_path : string)
  (registered_chats : dict) : TGNotifier :=
  {| config_file_path := config_file_path;
     api_key := api_key;
     bot_url := "https://api.telegram.org/bot" ++ api_key;
     last_update_id := 0;
     registered_chats := registered_chats |}.

Definition set_last_update_id (v : Z) : M TGNotifier unit :=
  self <- get_self ;;
  put_self {| config_file_path := config_file_path self;
              api_key := api_key self;
              bot_url := bot_url self;
              last_update_id := v;
              registered_chats := registered_chats self |}.

Definition set_registered_chats (d : dict) : M TGNotifier unit :=
  self <- get_self ;;
  put_self {| config_file_path := config_file_path self;
              api_key := api_key self;
              bot_url := bot_url self;
              last_update_id := last_update_id self;
              registered_chats := d |}.

(** [self.get(method, data)] *)
Definition get (method : string) (data : option payload)
  : M TGNotifier json_value :=
  self <- get_self ;;
  let full_url := bot_url self ++ "/" ++ method in
  res <- checked_get_request full_url data ;;
  response_json res.

(** [self.post(method, data)] *)
Definition post (method : string) (data : option payload)
  : M TGNotifier json_value :=
  self <- get_self ;;
  let full_url := bot_url self ++ "/" ++ method in
  r <- http POST full_url data ;;
  match r with
  | NetError => raise (TGException "Request failed critically (no internet?)")
  | NetResponse res =>
      if negb (status_code res =? 200) then
        raise (TGException
                 ("Request failed with status code "
                  ++ str_of_int (status_code res)
                  ++ (if status_code res =? 400
                      then " (illformed message?)" else "")))
      else response_json res
  end.

(** [self.send_msg(chat_id, msg, notify)] *)
Definition send_msg (chat_id : chat_key) (msg : string) (notify : bool)
  : M TGNotifier unit :=
  let payload := SendMessage chat_id msg "markdown" notify in
  post "sendMessage" (Some payload) ;;;
  ret tt.

(** [self.send_host_msg(chat_id, msg, notify)] *)
Definition send_host_msg (chat_id : chat_key) (msg : string) (notify : bool)
  : M TGNotifier unit :=
  e <- ask ;;
  let hostname := gethostname e in
  let new_msg := msg ++ nl ++ "_from_ `" ++ hostname ++ "`" in
  send_msg chat_id new_msg notify.

(** The [for] loop of [broadcast] over [self.registered_chats.items()],
    carrying the two counters. *)
Fixpoint broadcast_loop (items : dict) (msg : string) (with_host notify : bool)
  (num_success num_failure : Z) : M TGNotifier (Z * Z) :=
  match items with
  | [] => ret (num_success, num_failure)
  | (chat_id, name) :: rest =>
      log DEBUG ("Sending message to '" ++ name ++ "'") ;;;
      c <- try_except_TG
             (if with_host then send_host_msg chat_id msg notify
              else send_msg chat_id msg notify)
             (fun e =>
                log ERROR ("Failed to send message to " ++ name ++ "!" ++ nl
                           ++ "Reason: " ++ e) ;;;
                ret (num_success, num_failure + 1))
             (fun _ => ret (num_success + 1, num_failure)) ;;
      broadcast_loop rest msg with_host notify (fst c) (snd c)
  end.

(** The closing [logger.info] line of [broadcast]. *)
Definition done_sending (num_success num_failure : Z) : string :=
  if num_failure >? 0 then
    "Done sending messages, " ++ str_of_int num_success
    ++ " successful, " ++ str_of_int num_failure ++ " failed."
  else
    "Done sending " ++ str_of_int num_success ++ " message"
    ++ (if negb (num_success =? 1) then "s" else "") ++ ".".

(** [self.broadcast(msg, with_host, notify)] *)
Definition broadcast (msg : string) (with_host notify : bool)
  : M TGNotifier Z :=
  self <- get_self ;;
  c <- broadcast_loop (registered_chats self) msg with_host notify 0 0 ;;
  let num_success := fst c in
  let num_failure := snd c in
  log INFO (done_sending num_success num_failure) ;;;
  ret num_failure.

(** The maximum computed by the loop of [get_updates]. *)
Definition max_update_id (start : Z) (results : list update) : Z :=
  fold_left (fun new_last_update_id upd =>
               Z.max new_last_update_id (update_id upd)) results start.

(** [self.get_updates(limit, timeout, allowed_updates)] *)
Definition get_updates (limit timeout : Z) (allowed_updates : list string)
  : M TGNotifier (list update) :=
  self <- get_self ;;
  let offset := last_update_id self + 1 in
  data <- get "getUpdates" (Some (GetUpdates offset limit timeout ["message"])) ;;
  results <- match data with
             | JUpdates r => ret r
             | JFile _ => raise TypeError
             | JOther => raise (KeyError "result")
             end ;;
  let new_last_update_id := max_update_id (last_update_id self) results in
  set_last_update_id new_last_update_id ;;;
  (* Mark these updates as received to the server *)
  get "getUpdates"
      (Some (GetUpdates (new_last_update_id + 1) limit timeout ["message"])) ;;;
  ret results.

(** The selection loop of [download_photo_from_msg]: the triple
    [(height, width, file_id)] after the loop. *)
Definition largest_photo (photo_sizes : list photo_size)
  : Z * Z * option string :=
  fold_left (fun acc ps =>
               let '(height, width, file_id) := acc in
               if ps_width ps >? width
               then (ps_height ps, ps_width ps, Some (ps_file_id ps))
               else (height, width, file_id))
            photo_sizes (-1, -1, None).

(** [self.download_photo_from_msg(msg, path)] *)
Definition download_photo_from_msg (msg : message) (path : string)
  : M TGNotifier string :=
  match msg_photo msg with
  | None => raise AssertionError
  | Some photo_sizes =>
      let file_id := snd (largest_photo photo_sizes) in
      j <- get "getFile" (Some (GetFile file_id)) ;;
      file_path <- match j with
                   | JFile p => ret p
                   | JUpdates _ => raise TypeError
                   | JOther => raise (KeyError "result")
                   end ;;
      e <- ask ;;
      self <- get_self ;;
      let ext := snd (splitext e file_path) in
      let dl_url := "https://api.telegram.org/file/bot" ++ api_key self
                    ++ "/" ++ file_path in
      r <- checked_get_request dl_url None ;;
      let full_path := path ++ ext in
      write_file full_path (res_content r) ;;;
      ret full_path
  end.

(** The display name built by [get_recent_chats]. *)
Definition chat_name (c : chat) : string :=
  match first_name c with Some s => s | None => "<no first name>" end
  ++ " "
  ++ match last_name c with Some s => s | None => "<no last name>" end
  ++ " (@"
  ++ match username c with Some s => s | None => "<no username>" end
  ++ ")".

(** The loop of [get_recent_chats] filling [recent_chats]. *)
Fixpoint recent_chats_loop (updates : list update) (recent_chats : dict)
  : M TGNotifier dict :=
  match updates with
  | [] => ret recent_chats
  | upd :: rest =>
      match upd_message upd with
      | None => raise (KeyError "message")
      | Some msg =>
          let c := msg_chat msg in
          recent_chats_loop rest
            (dict_set recent_chats (KInt (chat_id c)) (chat_name c))
      end
  end.

(** [self.get_recent_chats()] *)
Definition get_recent_chats : M TGNotifier dict :=
  updates <- get_updates 100 0 ["message"] ;;
  recent_chats_loop updates [].

(** [self.registered_chats.update(new_chats)] *)
Definition registered_chats_update (new_chats : dict) : M TGNotifier unit :=
  self <- get_self ;;
  set_registered_chats (dict_update (registered_chats self) new_chats).

(** [self.add_recent_chats()] *)
Definition add_recent_chats : M TGNotifier dict :=
  new_chats <- get_recent_chats ;;
  registered_chats_update new_chats ;;;
  ret new_chats.

(** The send path of [main]: the words of the message and the [--mute]
    flag reach [broadcast] as [msg] and [notify]. *)
Definition main_send (args_msg : list string) (args_mute : bool)
  : M TGNotifier Z :=
  let msg := str_join nl args_msg in
  broadcast msg true (negb args_mute).

(** ** Config file, command line

    [open] and the [json] module are outside the program; they are passed
    in.  A config file is taken to be what [store_config] writes: an object
    whose ["api_key"], when there, is a string and whose
    ["registered_chats"], when there, maps strings to strings. *)

(** What [open(path, 'r')] followed by [json.load] gives. *)
Inductive config_file : Type :=
| NoSuchFile
| NotJSON
| ConfigObject (doc_api_key : option string)
    (doc_registered_chats : option (list (string * string))).

(** What [create] and [main] find around them besides [env].  The last
    field is the dict object that is the default of [__init__] for
    [registered_chats]: every notifier built without a registry shares it,
    so it holds whatever was put into such a notifier's registry earlier in
    the same interpreter, and nothing in a fresh one. *)
Record files : Type := mk_files {
  open_json : string -> config_file;
  (* the text [json.dump] writes for [{'api_key': k, 'registered_chats': d}] *)
  json_dump : string -> dict -> string;
  default_registered_chats : dict
}.

(** The dict [json.load] builds from a JSON object: its keys are [str]. *)
Definition loaded_chats (doc : list (string * string)) : dict :=
  map (fun kv => (KStr (fst kv), snd kv)) doc.

(** [TGNotifier.create(config_file_path)] *)
Definition create {S} (fs : files) (config_file_path : option string)
  : M S TGNotifier :=
  config_file_path <- get_config_file_path config_file_path ;;
  log DEBUG ("Using config file at '" ++ config_file_path ++ "'") ;;;
  match open_json fs config_file_path with
  | NoSuchFile =>
      raise (TGException
               ("No config file found at '" ++ config_file_path ++ "'!"))
  | NotJSON => raise JSONDecodeError
  | ConfigObject doc_api_key doc_registered_chats =>
      match doc_api_key with
      | None => raise (TGException "Incomplete config file!")
      | Some api_key =>
          match doc_registered_chats with
          | None => raise (TGException "Incomplete config file!")
          | Some registered_chats =>
              ret (TGNotifier_init api_key config_file_path
                     (loaded_chats registered_chats))
          end
      end
  end.

(** [self.store_config()] *)
Definition store_config (fs : files) : M TGNotifier unit :=
  self <- get_self ;;
  write_file (config_file_path self)
    (json_dump fs (api_key self) (registered_chats self)).

(** The parsed command line, without the two logging options. *)
Record cli_args : Type := mk_args {
  args_msg : list string;
  args_config : option string;
  args_newconfig : option string;
  args_find : bool;
  args_clear : bool;
  args_chats : bool;
  args_mute : bool
}.

(** How [main] ends: through [exit(code)] or by returning. *)
Inductive exit_status : Type :=
| Exit (code : Z)
| Returned.

(** [print(line, file=sys.stderr)]; the state of [main] is what it has
    printed so far. *)
Definition print_stderr (line : string) : M (list string) unit :=
  fun _ s w => (Ok tt, (s ++ [line])%list, w).

(** A method call on the local object [tgn] of [main]. *)
Definition on_object {S A} (tgn : TGNotifier) (m : M TGNotifier A)
  : M S (A * TGNotifier) :=
  fun e s w =>
    match m e tgn w with
    | (Ok a, tgn', w') => (Ok (a, tgn'), s, w')
    | (Raise x, _, w') => (Raise x, s, w')
    end.

(** [str(chat_id)] for a key of the registry. *)
Definition str_of_key (k : chat_key) : string :=
  match k with
  | KStr s => s
  | KInt z => str_of_int z
  end.

(** [for chat_id, name in chats.items(): print("  {}: {}".format(...))] *)
Fixpoint print_chats (chats : dict) : M (list string) unit :=
  match chats with
  | [] => ret tt
  | (chat_id, name) :: rest =>
      print_stderr ("  " ++ str_of_key chat_id ++ ": " ++ name) ;;;
      print_chats rest
  end.

(** [main()], after the command line is parsed. *)
Definition main (fs : files) (args : cli_args) : M (list string) exit_status :=
  config_file_path <- get_config_file_path (args_config args) ;;
  match args_newconfig args with
  | Some api_key =>
      (* TGNotifier(api_key, config_file_path): the registry is the shared
         default of __init__ *)
      let tgn := TGNotifier_init api_key config_file_path
                   (default_registered_chats fs) in
      on_object tgn (store_config fs) ;;;
      print_stderr ("New config created at '" ++ config_file_path ++ "'.") ;;;
      ret (Exit 0)
  | None =>
      is_file <- os_path_isfile config_file_path ;;
      if negb is_file then
        print_stderr
          "Error: No config file found! Consider creating one with '--newconfig <API_KEY>'." ;;;
        ret (Exit 1)
      else
        tgn <- create fs (Some config_file_path) ;;
        if args_find args then
          r <- on_object tgn add_recent_chats ;;
          let new_chats := fst r in
          let tgn := snd r in
          let num := Z.of_nat (List.length (dict_keys new_chats)) in
          if num =? 0 then
            print_stderr "Found no chats!" ;;;
            ret (Exit 0)
          else
            (if num =? 1 then print_stderr "Found 1 chat:"
             else print_stderr ("Found " ++ str_of_int num ++ " chats:")) ;;;
            print_chats new_chats ;;;
            on_object tgn (store_config fs) ;;;
            print_stderr ("Updated chats were written to config file at '"
                          ++ config_file_path ++ "'") ;;;
            ret (Exit 0)
        else if args_chats args then
          let chats := registered_chats tgn in
          print_stderr "Currently registered chats:" ;;;
          print_chats chats ;;;
          ret (Exit 0)
        else if args_clear args then
          r <- on_object tgn (set_registered_chats []) ;;
          let tgn := snd r in
          on_object tgn (store_config fs) ;;;
          print_stderr ("Updated chats were written to config file at '"
                        ++ config_file_path ++ "'") ;;;
          ret (Exit 0)
        else
          on_object tgn (main_send (args_msg args) (args_mute args)) ;;;
          ret Returned
  end.

(** ** Vocabulary of the specification *)

(** The resolution table of the config locator, in the specification's
    words: explicit path first; both exist: colocated; only one exists: that
    one; none exists: the standard location when available, else colocated. *)
Definition resolve_table (explicit : option string) (colocated : string)
  (standard : option string) (colocated_exists standard_exists : bool)
  : string :=
  match explicit with
  | Some p => p
  | None =>
      match standard with
      | None => colocated
      | Some std =>
          match colocated_exists, standard_exists with
          | true, true => colocated
          | true, false => colocated
          | false, true => std
          | false, false => std
          end
      end
  end.

(** The two candidate paths of an environment. *)
Definition colocated_config (e : env) : string :=
  path_join e (script_path e) "config.json".

(** The directory the standard facility gives, when it gives one. *)
Definition standard_dir (e : env) : option string :=
  match xdg_import e with
  | BaseDirectory save_config_path =>
      match save_config_path "tgnotipy" with
      | Ok dir => Some dir
      | Raise _ => None
      end
  | _ => None
  end.

Definition standard_config (e : env) : option string :=
  match standard_dir e with
  | Some dir => Some (path_join e dir "config.json")
  | None => None
  end.

(** The exception the standard facility raises past the [except] clause of
    [get_config_file_path], if it does. *)
Definition xdg_failure (e : env) : option exn :=
  match xdg_import e with
  | ModuleNotFound => None
  | ImportFails x => Some x
  | BaseDirectory save_config_path =>
      match save_config_path "tgnotipy" with
      | Ok _ => None
      | Raise x => Some x
      end
  end.

Definition standard_config_exists (e : env) : bool :=
  match standard_config e with
  | Some p => isfile e p
  | None => false
  end.

(** The run raised [TGException]. *)
Definition raises_TGException {A S : Type} (out : result A * S * io) : Prop :=
  exists msg, fst (fst out) = Raise (TGException msg).

(** The failure condition as the code tests it. *)
Definition request_fails (r : net_result) : bool :=
  match r with
  | NetError => true
  | NetResponse res => negb (status_code res =? 200)
  end.

(** The failure condition in the specification's words: a transport-level
    failure or a status outside 200..299. *)
Definition is_2xx (status : Z) : bool := (200 <=? status) && (status <? 300).

(** The same failure condition with "non-2xx" in place of "not 200". *)
Definition request_fails_non_2xx (r : net_result) : bool :=
  match r with
  | NetError => true
  | NetResponse res => negb (is_2xx (status_code res))
  end.

(** The effects [w] with one more request sent. *)
Definition record_sent (w : io) (r : request) : io :=
  mk_io (sent w ++ [r]) (logged w) (probed w) (written w) (ensured w).

(** The request [self.get] or [self.post] issues for a method. *)
Definition api_request (self : TGNotifier) (v : http_verb) (method : string)
  (data : option payload) : request :=
  mk_request v (bot_url self ++ "/" ++ method) data.

(** The JSON document a request hands to its caller, if it does. *)
Definition decoded (r : net_result) : option json_value :=
  match r with
  | NetError => None
  | NetResponse res => if status_code res =? 200 then res_json res else None
  end.

(** [self] after [self.last_update_id = v]. *)
Definition with_cursor (self : TGNotifier) (v : Z) : TGNotifier :=
  {| config_file_path := config_file_path self;
     api_key := api_key self;
     bot_url := bot_url self;
     last_update_id := v;
     registered_chats := registered_chats self |}.

(** The "get updates" request for the cursor of [self]. *)
Definition updates_request (self : TGNotifier) (limit timeout : Z) : request :=
  api_request self GET "getUpdates"
    (Some (GetUpdates (last_update_id self + 1) limit timeout ["message"])).

(** The batch the first request of [get_updates] returns, if it returns one. *)
Definition first_batch (e : env) (self : TGNotifier) (w : io)
  (limit timeout : Z) : option (list update) :=
  match decoded (net e (List.length (sent w))
                   (updates_request self limit timeout)) with
  | Some (JUpdates b) => Some b
  | _ => None
  end.

(** [K] is the maximum update id of a batch. *)
Definition is_batch_max (b : list update) (K : Z) : Prop :=
  In K (map update_id b) /\ Forall (fun u => update_id u <= K) b.

(** The text a recipient is sent. *)
Definition delivery_text (e : env) (msg : string) (with_host : bool) : string :=
  if with_host then msg ++ nl ++ "_from_ `" ++ gethostname e ++ "`" else msg.

(** The delivery attempt for one recipient. *)
Definition delivery_request (e : env) (self : TGNotifier) (msg : string)
  (with_host notify : bool) (chat_id : chat_key) : request :=
  api_request self POST "sendMessage"
    (Some (SendMessage chat_id (delivery_text e msg with_host) "markdown" notify)).

(** The answers to a run of consecutive requests, the first being request
    number [k]. *)
Fixpoint answers (e : env) (k : nat) (reqs : list request) : list net_result :=
  match reqs with
  | [] => []
  | r :: rest => net e k r :: answers e (S k) rest
  end.

(** A delivery went through: status 200 and a JSON body. *)
Definition delivered (r : net_result) : bool :=
  match decoded r with Some _ => true | None => false end.

(** A delivery either raised [TGException] or went through. *)
Definition settled (r : net_result) : bool := request_fails r || delivered r.

(** How many answers satisfy [p]. *)
Definition count (p : net_result -> bool) (rs : list net_result) : Z :=
  Z.of_nat (List.length (filter p rs)).

(** The outcome of the specification's data model. *)
Record BroadcastOutcome : Type := mk_outcome {
  successCount : Z;
  failureCount : Z
}.

(** The name the latest message of chat [id] gives it, if any message of
    the list comes from that chat. *)
Fixpoint latest_name (msgs : list message) (id : Z) : option string :=
  match msgs with
  | [] => None
  | m :: rest =>
      match latest_name rest id with
      | Some n => Some n
      | None =>
          if chat_id (msg_chat m) =? id then Some (chat_name (msg_chat m))
          else None
      end
  end.

(** What the overwrite-union of the specification looks up. *)
Definition overwrite_union_get (old new : dict) (k : chat_key)
  : option string :=
  match dict_get new k with
  | Some n => Some n
  | None => dict_get old k
  end.

(** [p] has the greatest width of the list. *)
Definition widest (l : list photo_size) (p : photo_size) : Prop :=
  In p l /\ Forall (fun q => ps_width q <= ps_width p) l.

(** [p] is the first, respectively the last, variant of its width in
    iteration order. *)
Definition first_of_its_width (l : list photo_size) (p : photo_size) : Prop :=
  find (fun q => ps_width q =? ps_width p) l = Some p.

Definition last_of_its_width (l : list photo_size) (p : photo_size) : Prop :=
  find (fun q => ps_width q =? ps_width p) (rev l) = Some p.

(** The two requests of photo retrieval. *)
Definition getFile_request (self : TGNotifier) (file_id : option string)
  : request :=
  api_request self GET "getFile" (Some (GetFile file_id)).

Definition download_request (self : TGNotifier) (file_path : string) : request :=
  mk_request GET
    ("https://api.telegram.org/file/bot" ++ api_key self ++ "/" ++ file_path)
    None.

(** One round of the selection loop. *)
Definition photo_step (acc : Z * Z * option string) (ps : photo_size)
  : Z * Z * option string :=
  let '(height, width, file_id) := acc in
  if ps_width ps >? width
  then (ps_height ps, ps_width ps, Some (ps_file_id ps))
  else (height, width, file_id).

(** The reason [post] gives when it raises [TGException]. *)
Definition post_failure_reason (r : net_result) : option string :=
  match r with
  | NetError => Some "Request failed critically (no internet?)"
  | NetResponse res =>
      if status_code res =? 200 then None
      else Some ("Request failed with status code "
                 ++ str_of_int (status_code res)
                 ++ if status_code res =? 400
                    then " (illformed message?)" else "")
  end.

(** What one delivery attempt comes to, given the answer to its request. *)
Definition delivery_result (r : net_result) : result unit :=
  match post_failure_reason r with
  | Some reason => Raise (TGException reason)
  | None =>
      match decoded r with
      | Some _ => Ok tt
      | None => Raise JSONDecodeError
      end
  end.

(** The log lines of one settled delivery: the debug line, and the error
    line when the delivery raised [TGException]. *)
Definition delivery_log (name : string) (r : net_result)
  : list (loglevel * string) :=
  (DEBUG, "Sending message to '" ++ name ++ "'")
  :: match post_failure_reason r with
     | Some reason =>
         [(ERROR, "Failed to send message to " ++ name ++ "!" ++ nl
                  ++ "Reason: " ++ reason)]
     | None => []
     end.

Fixpoint delivery_logs (names : list string) (rs : list net_result)
  : list (loglevel * string) :=
  match names, rs with
  | name :: names', r :: rs' =>
      (delivery_log name r ++ delivery_logs names' rs')%list
  | _, _ => []
  end.

(** The key is an [int], as the keys [get_recent_chats] inserts are; the key
    is a [str], as the keys of a loaded config file are. *)
Definition is_int_key (k : chat_key) : Prop := exists z, k = KInt z.

Definition is_str_key (k : chat_key) : Prop := exists s, k = KStr s.

(** The line [main] prints for one entry of a chat mapping. *)
Definition chat_line (kv : chat_key * string) : string :=
  "  " ++ str_of_key (fst kv) ++ ": " ++ snd kv.

(** ** Sample surroundings *)

Definition simple_join (a b : string) : string := a ++ "/" ++ b.

Definition no_splitext (p : string) : string * string := (p, "").

Definition json_response (status : Z) (j : json_value) : net_result :=
  NetResponse (mk_response status (Some j) "").

(** An environment with the config file present at the listed paths, every
    path writable, the [xdg] module installed or not, and a scripted
    network. *)
Definition sample_env (files : list string) (xdg : bool)
  (net : nat -> request -> net_result) : env :=
  {| script_path := "/opt/tgnotipy";
     path_join := simple_join;
     isfile := fun p => existsb (String.eqb p) files;
     writable := fun _ => true;
     xdg_import :=
       if xdg then BaseDirectory (fun prog => Ok ("/home/u/.config/" ++ prog))
       else ModuleNotFound;
     gethostname := "box";
     splitext := no_splitext;
     net := net |}.

(** The same environment with another [xdg_import] outcome, or with nothing
    writable. *)
Definition with_xdg (e : env) (x : xdg_module) : env :=
  {| script_path := script_path e;
     path_join := path_join e;
     isfile := isfile e;
     writable := writable e;
     xdg_import := x;
     gethostname := gethostname e;
     splitext := splitext e;
     net := net e |}.

Definition read_only (e : env) : env :=
  {| script_path := script_path e;
     path_join := path_join e;
     isfile := isfile e;
     writable := fun _ => false;
     xdg_import := xdg_import e;
     gethostname := gethostname e;
     splitext := splitext e;
     net := net e |}.

Definition always_ok (k : nat) (r : request) : net_result :=
  json_response 200 JOther.

(** The colocated config exists and [import xdg] finds another package. *)
Definition foreign_xdg_env : env :=
  with_xdg (sample_env ["/opt/tgnotipy/config.json"] false always_ok)
    (ImportFails ImportError).

Definition status_env (status : Z) : env :=
  sample_env [] false (fun _ _ => json_response status JOther).

Definition alice_bob : dict := [(KStr "1", "Alice"); (KStr "2", "Bob")].

Definition sample_notifier (d : dict) : TGNotifier :=
  TGNotifier_init "KEY" "/opt/tgnotipy/config.json" d.

Definition updates_env (first : list update) : env :=
  sample_env [] false
    (fun k _ => match k with
                | O => json_response 200 (JUpdates first)
                | _ => json_response 200 (JUpdates [])
                end).

Definition plain_update (uid cid : Z) (first : string) : update :=
  mk_update uid
    (Some (mk_message (mk_chat cid (Some first) None None) None)).

Definition photo_env : env :=
  sample_env [] false
    (fun k _ => match k with
                | O => json_response 200 (JFile "photos/file_1.jpg")
                | _ => NetResponse (mk_response 200 None "JPEG")
                end).

Definition two_equal_sizes : list photo_size :=
  [mk_photo_size "a" 100 80; mk_photo_size "b" 100 80].

Definition photo_message (l : list photo_size) : message :=
  mk_message (mk_chat 7 None None None) (Some l).

(** A file system with one config file, and a rendering of the config that
    keeps the credential and the entries readable. *)
Definition render_config (k : string) (d : dict) : string :=
  k ++ ":" ++ str_join "," (map (fun kv => str_of_key (fst kv) ++ "=" ++ snd kv) d).

Definition sample_files (path : string) (content : config_file) : files :=
  {| open_json := fun p => if String.eqb p path then content else NoSuchFile;
     json_dump := render_config;
     default_registered_chats := [] |}.

(** The same files in an interpreter where a notifier built without a
    registry has already discovered chat 7. *)
Definition used_default (fs : files) : files :=
  {| open_json := open_json fs;
     json_dump := json_dump fs;
     default_registered_chats := [(KInt 7, "Ann <no last name> (@<no username>)")] |}.

Definition sample_args : cli_args :=
  {| args_msg := ["hello"; "world"];
     args_config := Some "/etc/tg.json";
     args_newconfig := None;
     args_find := false;
     args_clear := false;
     args_chats := false;
     args_mute := false |}.

(** ** Properties of the config locator *)

(** C5 as the code has it.  With an explicit path [get_config_file_path]
    returns it and has no effect.  Otherwise, when the standard facility is
    there or its module is not installed, it returns what the resolution
    table says for every combination of existing config files, warns exactly
    when both files exist, and probes the candidate paths; when importing the
    facility raises something other than [ModuleNotFoundError], or its
    [save_config_path] raises, that exception propagates after the colocated
    path was probed. *)
Theorem get_config_file_path_table :
  forall (S : Type) (e : env) (s : S) (w : io) (explicit : option string),
    let both :=
      match explicit with
      | Some _ => false
      | None => standard_config_exists e && isfile e (colocated_config e)
      end in
    get_config_file_path explicit e s w =
      match explicit, xdg_failure e with
      | None, Some x =>
          (Raise x, s,
           mk_io (sent w) (logged w) (probed w ++ [colocated_config e])
             (written w) (ensured w))
      | _, _ =>
          (Ok (resolve_table explicit (colocated_config e) (standard_config e)
                 (isfile e (colocated_config e)) (standard_config_exists e)),
           s,
           mk_io (sent w)
             (logged w ++
                if both then
                  [(WARNING,
                    two_configs_warning
                      match standard_config e with
                      | Some p => p
                      | None => "None"
                      end
                      (colocated_config e))]
                else [])
             (probed w ++
                match explicit with
                | Some _ => []
                | None =>
                    colocated_config e ::
                      match standard_config e with
                      | Some p => [p]
                      | None => []
                      end
                end)
             (written w)
             (ensured w ++
                match explicit, standard_dir e with
                | None, Some dir => [dir]
                | _, _ => []
                end))
      end.
Proof.
  intros S e s w explicit both. subst both.
  destruct w as [sn lg pr wr en].
  destruct explicit as [p|].
  - simpl. rewrite !app_nil_r. now destruct (xdg_failure e).
  - unfold get_config_file_path, standard_config_exists, standard_config,
      standard_dir, xdg_failure, colocated_config, bind, ask, os_path_isfile,
      xdg_save_config_path, ret, log, raise.
    simpl.
    destruct (xdg_import e) as [|x|save]; simpl.
    + destruct (isfile e (path_join e (script_path e) "config.json"));
        simpl; rewrite ?app_nil_r; reflexivity.
    + reflexivity.
    + destruct (save "tgnotipy") as [dir|x]; simpl; [|reflexivity].
      destruct (isfile e (path_join e dir "config.json")),
        (isfile e (path_join e (script_path e) "config.json"));
        simpl; rewrite <- ?app_assoc, ?app_nil_r; reflexivity.
Qed.

(** C5 as stated fails: another package is installed under the name [xdg],
    so the standard facility is not available, and the colocated config
    exists; the table says the colocated path, the code raises
    [ImportError]. *)
Lemma get_config_file_path_foreign_xdg :
  let e := foreign_xdg_env in
  standard_config e = None
  /\ isfile e (colocated_config e) = true
  /\ fst (fst (get_config_file_path None e tt io0))
     <> Ok (resolve_table None (colocated_config e) (standard_config e)
              (isfile e (colocated_config e)) (standard_config_exists e)).
Proof.
  intros e. split; [reflexivity|]. split; [reflexivity|].
  intros H. vm_compute in H. discriminate H.
Qed.

(** ** Properties of the transport client *)

Lemma raise_not_Ok {A S : Type} (a : A) (s : S) (w : io) :
  ~ raises_TGException (Ok a, s, w).
Proof. intros [msg H]. discriminate H. Qed.

Lemma response_json_not_TG {S : Type} (res : http_response) (e : env) (s : S)
  (w : io) : ~ raises_TGException (response_json res e s w).
Proof.
  unfold response_json. intros [msg H].
  destruct (res_json res); discriminate H.
Qed.

(** C7 as the code has it.  [get] and [post] raise [TGException] exactly on a
    transport failure or a status other than 200; the message of a status
    failure carries the status code, and only [post] adds the hint for 400. *)
Theorem request_failed_iff_not_200 :
  forall (e : env) (self : TGNotifier) (w : io) (method : string)
         (data : option payload),
    let url := bot_url self ++ "/" ++ method in
    let answer v := net e (List.length (sent w)) (mk_request v url data) in
    (raises_TGException (get method data e self w)
     <-> request_fails (answer GET) = true)
    /\ (raises_TGException (post method data e self w)
        <-> request_fails (answer POST) = true)
    /\ (forall res, answer GET = NetResponse res -> status_code res <> 200 ->
        fst (fst (get method data e self w)) =
          Raise (TGException ("Request failed with status code "
                              ++ str_of_int (status_code res))))
    /\ (forall res, answer POST = NetResponse res -> status_code res <> 200 ->
        fst (fst (post method data e self w)) =
          Raise (TGException ("Request failed with status code "
                              ++ str_of_int (status_code res)
                              ++ if status_code res =? 400
                                 then " (illformed message?)" else ""))).
Proof.
  intros e self w method data url answer.
  unfold get, post, checked_get_request, bind, get_self, http, raise.
  fold url. fold (answer GET). fold (answer POST).
  repeat split.
  - destruct (answer GET) as [|res]; simpl; [reflexivity|].
    destruct (status_code res =? 200); simpl; [|reflexivity].
    intros H. exfalso. revert H. apply response_json_not_TG.
  - destruct (answer GET) as [|res]; simpl; [intros _; now eexists|].
    destruct (status_code res =? 200); simpl; [discriminate|].
    intros _. now eexists.
  - destruct (answer POST) as [|res]; simpl; [reflexivity|].
    destruct (status_code res =? 200); simpl; [|reflexivity].
    intros H. exfalso. revert H. apply response_json_not_TG.
  - destruct (answer POST) as [|res]; simpl; [intros _; now eexists|].
    destruct (status_code res =? 200); simpl; [discriminate|].
    intros _. now eexists.
  - intros res Hres Hst. rewrite Hres. simpl.
    apply Z.eqb_neq in Hst. now rewrite Hst.
  - intros res Hres Hst. rewrite Hres. simpl.
    apply Z.eqb_neq in Hst. now rewrite Hst.
Qed.

(** Witness for C7: a 400 answer, seen through [post] and through [get]. *)
Lemma request_failed_iff_not_200_witness :
  fst (fst (post "sendMessage" None (status_env 400) (sample_notifier []) io0))
  = Raise (TGException "Request failed with status code 400 (illformed message?)")
  /\ fst (fst (get "getUpdates" None (status_env 400) (sample_notifier []) io0))
     = Raise (TGException "Request failed with status code 400").
Proof.
  split.
  - apply (proj2 (proj2 (proj2
             (request_failed_iff_not_200 (status_env 400) (sample_notifier [])
                io0 "sendMessage" None)))
             (mk_response 400 (Some JOther) "")); [reflexivity | simpl; lia].
  - apply (proj1 (proj2 (proj2
             (request_failed_iff_not_200 (status_env 400) (sample_notifier [])
                io0 "getUpdates" None)))
             (mk_response 400 (Some JOther) "")); [reflexivity | simpl; lia].
Defined.

(** C7 as stated fails: a 204 answer is 2xx, so the stated condition says no
    failure, yet [post] raises [TGException]. *)
Lemma request_failed_non_2xx_counterexample :
  let e := status_env 204 in
  let self := sample_notifier [] in
  ~ (raises_TGException (post "sendMessage" None e self io0)
     <-> request_fails_non_2xx
           (net e 0%nat (mk_request POST (bot_url self ++ "/sendMessage") None))
         = true).
Proof.
  intros e self [H _].
  assert (R : raises_TGException (post "sendMessage" None e self io0))
    by (eexists; reflexivity).
  apply H in R. discriminate R.
Qed.

(** ** Running one request *)

Lemma sent_record_sent (w : io) (r : request) :
  List.length (sent (record_sent w r)) = S (List.length (sent w)).
Proof. simpl. rewrite length_app. simpl. lia. Qed.

Lemma get_decoded (e : env) (self : TGNotifier) (w : io) (method : string)
  (data : option payload) (j : json_value) :
  decoded (net e (List.length (sent w)) (api_request self GET method data))
    = Some j ->
  get method data e self w
    = (Ok j, self, record_sent w (api_request self GET method data)).
Proof.
  unfold decoded, get, checked_get_request, response_json, bind, get_self,
    http, raise, ret, api_request, record_sent.
  destruct (net e _ _) as [|res]; [discriminate|].
  destruct (status_code res =? 200); simpl; [|discriminate].
  intros ->. reflexivity.
Qed.

Lemma get_not_decoded (e : env) (self : TGNotifier) (w : io) (method : string)
  (data : option payload) :
  decoded (net e (List.length (sent w)) (api_request self GET method data))
    = None ->
  exists x,
    get method data e self w
      = (Raise x, self, record_sent w (api_request self GET method data)).
Proof.
  unfold decoded, get, checked_get_request, response_json, bind, get_self,
    http, raise, ret, api_request, record_sent.
  destruct (net e _ _) as [|res]; [intros _; now eexists|].
  destruct (status_code res =? 200); simpl; [|intros _; now eexists].
  intros ->. now eexists.
Qed.

Lemma post_decoded (e : env) (self : TGNotifier) (w : io) (method : string)
  (data : option payload) (j : json_value) :
  decoded (net e (List.length (sent w)) (api_request self POST method data))
    = Some j ->
  post method data e self w
    = (Ok j, self, record_sent w (api_request self POST method data)).
Proof.
  unfold decoded, post, response_json, bind, get_self, http, raise, ret,
    api_request, record_sent.
  destruct (net e _ _) as [|res]; [discriminate|].
  destruct (status_code res =? 200); simpl; [|discriminate].
  intros ->. reflexivity.
Qed.

Lemma post_run (e : env) (self : TGNotifier) (w : io) (method : string)
  (data : option payload) :
  exists r,
    post method data e self w
      = (r, self, record_sent w (api_request self POST method data))
    /\ (request_fails
          (net e (List.length (sent w)) (api_request self POST method data))
        = true -> exists msg, r = Raise (TGException msg))
    /\ (request_fails
          (net e (List.length (sent w)) (api_request self POST method data))
        = false -> forall msg, r <> Raise (TGException msg)).
Proof.
  unfold post, response_json, bind, get_self, http, raise, ret, api_request,
    record_sent, request_fails.
  destruct (net e _ _) as [|res]; simpl.
  - eexists. split; [reflexivity|]. split; [now eexists | discriminate].
  - destruct (status_code res =? 200); simpl.
    + destruct (res_json res); eexists; (split; [reflexivity|]);
        (split; [discriminate | intros _ msg; discriminate]).
    + eexists. split; [reflexivity|]. split; [now eexists | discriminate].
Qed.

(** ** Properties of the update cursor *)

Lemma max_update_id_ge (b : list update) :
  forall c, c <= max_update_id c b.
Proof.
  unfold max_update_id. induction b as [|u b IH]; intros c; simpl; [lia|].
  specialize (IH (Z.max c (update_id u))). lia.
Qed.

Lemma max_update_id_bounds (b : list update) :
  forall c, Forall (fun u => update_id u <= max_update_id c b) b.
Proof.
  induction b as [|u b IH]; intros c; constructor.
  - pose proof (max_update_id_ge b (Z.max c (update_id u))) as H.
    unfold max_update_id in *. simpl. lia.
  - apply (IH (Z.max c (update_id u))).
Qed.

Lemma max_update_id_attained (b : list update) :
  forall c, max_update_id c b = c \/ In (max_update_id c b) (map update_id b).
Proof.
  induction b as [|u b IH]; intros c; [now left|].
  change (max_update_id c (u :: b))
    with (max_update_id (Z.max c (update_id u)) b).
  destruct (IH (Z.max c (update_id u))) as [H|H].
  - rewrite H. destruct (Z.max_spec c (update_id u)) as [[_ M]|[_ M]];
      rewrite M; [right; now left | now left].
  - right. now right.
Qed.

Lemma max_update_id_is_max (b : list update) (c K : Z) :
  is_batch_max b K -> c <= K -> max_update_id c b = K.
Proof.
  intros [Hin Hall] Hc.
  apply in_map_iff in Hin. destruct Hin as (u & Hu & Hin).
  pose proof (max_update_id_bounds b c) as Hb.
  rewrite Forall_forall in Hb, Hall.
  specialize (Hb u Hin). rewrite Hu in Hb.
  destruct (max_update_id_attained b c) as [H|H]; [lia|].
  apply in_map_iff in H. destruct H as (u' & Hu' & Hin').
  specialize (Hall u' Hin'). lia.
Qed.

(** Stepping through a [bind]. *)
Lemma bind_Ok {S A B : Type} (m : M S A) (f : A -> M S B) (e : env) (s s' : S)
  (w w' : io) (a : A) :
  m e s w = (Ok a, s', w') -> bind m f e s w = f a e s' w'.
Proof. unfold bind. now intros ->. Qed.

Lemma bind_Raise {S A B : Type} (m : M S A) (f : A -> M S B) (e : env)
  (s s' : S) (w w' : io) (x : exn) :
  m e s w = (Raise x, s', w') -> bind m f e s w = (Raise x, s', w').
Proof. unfold bind. now intros ->. Qed.

(** [get_updates] when the first request returns a batch. *)
Lemma get_updates_batch (e : env) (self : TGNotifier) (w : io)
  (limit timeout : Z) (au : list string) (b : list update) :
  first_batch e self w limit timeout = Some b ->
  let self' := with_cursor self (max_update_id (last_update_id self) b) in
  let req1 := updates_request self limit timeout in
  let req2 := updates_request self' limit timeout in
  let w' := record_sent (record_sent w req1) req2 in
  exists r,
    get_updates limit timeout au e self w = (r, self', w')
    /\ (forall j,
          decoded (net e (S (List.length (sent w))) req2) = Some j -> r = Ok b)
    /\ (decoded (net e (S (List.length (sent w))) req2) = None ->
        exists x, r = Raise x).
Proof.
  intros Hb self' req1 req2 w'. unfold first_batch in Hb.
  destruct (decoded _) as [j|] eqn:D in Hb; [|discriminate].
  destruct j as [b0| |]; try discriminate. injection Hb as ->.
  unfold get_updates.
  erewrite bind_Ok by reflexivity.
  erewrite bind_Ok by (apply get_decoded; exact D).
  erewrite bind_Ok by reflexivity.
  erewrite bind_Ok by reflexivity.
  change (with_cursor self (max_update_id (last_update_id self) b)) with self'.
  fold (updates_request self limit timeout). fold req1.
  change (Some (GetUpdates (max_update_id (last_update_id self) b + 1)
                  limit timeout ["message"]))
    with (Some (GetUpdates (last_update_id self' + 1) limit timeout ["message"])).
  pose proof (sent_record_sent w req1) as L.
  destruct (decoded (net e (S (List.length (sent w))) req2)) as [j|] eqn:D2;
    rewrite <- L in D2; unfold req2, updates_request in D2.
  - erewrite bind_Ok by (apply get_decoded; exact D2).
    eexists. split; [reflexivity|]. split; [reflexivity | discriminate].
  - destruct (get_not_decoded _ _ _ _ _ D2) as [x Hx].
    erewrite bind_Raise by exact Hx.
    eexists. split; [reflexivity|]. split; [discriminate | now eexists].
Qed.

(** [get_updates] when the first request fails or returns no batch. *)
Lemma get_updates_no_batch (e : env) (self : TGNotifier) (w : io)
  (limit timeout : Z) (au : list string) :
  first_batch e self w limit timeout = None ->
  exists x,
    get_updates limit timeout au e self w
      = (Raise x, self, record_sent w (updates_request self limit timeout)).
Proof.
  unfold first_batch. intros Hb.
  unfold get_updates.
  erewrite bind_Ok by reflexivity.
  destruct (decoded _) as [j|] eqn:D.
  - erewrite bind_Ok by (apply get_decoded; exact D).
    destruct j; try discriminate;
      (erewrite bind_Raise by reflexivity); now eexists.
  - destruct (get_not_decoded _ _ _ _ _ D) as [x Hx].
    erewrite bind_Raise by exact Hx. now eexists.
Qed.

(** C3.  After [get_updates] the cursor is never lower than before; when the
    first request returns a batch whose maximum update id is [K] and the
    prior cursor is at most [K], the cursor is [K]; an empty batch leaves the
    cursor as it was. *)
Theorem get_updates_cursor :
  forall (e : env) (self : TGNotifier) (w : io) (limit timeout : Z)
         (au : list string),
    let self' := snd (fst (get_updates limit timeout au e self w)) in
    last_update_id self <= last_update_id self'
    /\ (forall b K,
          first_batch e self w limit timeout = Some b ->
          is_batch_max b K ->
          last_update_id self <= K ->
          last_update_id self' = K)
    /\ (first_batch e self w limit timeout = Some [] ->
        last_update_id self' = last_update_id self).
Proof.
  intros e self w limit timeout au self'.
  destruct (first_batch e self w limit timeout) as [b|] eqn:Hb.
  - destruct (get_updates_batch e self w limit timeout au b Hb)
      as (r & Hrun & _).
    assert (Hc : last_update_id self'
                 = max_update_id (last_update_id self) b)
      by (unfold self'; rewrite Hrun; reflexivity).
    rewrite Hc. split; [apply max_update_id_ge|]. split.
    + intros b0 K Hb0 HK Hle. injection Hb0 as <-.
      now apply max_update_id_is_max.
    + intros Hb0. injection Hb0 as ->. reflexivity.
  - destruct (get_updates_no_batch e self w limit timeout au Hb) as [x Hrun].
    assert (Hc : self' = self) by (unfold self'; rewrite Hrun; reflexivity).
    rewrite Hc. split; [lia|]. split; [|discriminate].
    intros b K Hb0. discriminate Hb0.
Qed.

(** Witness for C3: cursor 0, batch with ids 7 and 5, cursor 7 afterwards. *)
Lemma get_updates_cursor_witness :
  last_update_id
    (snd (fst (get_updates 100 0 ["message"]
                 (updates_env [plain_update 7 1 "A"; plain_update 5 2 "B"])
                 (sample_notifier []) io0))) = 7.
Proof.
  apply (proj1 (proj2
           (get_updates_cursor
              (updates_env [plain_update 7 1 "A"; plain_update 5 2 "B"])
              (sample_notifier []) io0 100 0 ["message"]))
           [plain_update 7 1 "A"; plain_update 5 2 "B"] 7).
  - reflexivity.
  - split; [simpl; now left|].
    repeat constructor; simpl; lia.
  - simpl. lia.
Defined.

(** C4.  [get_updates] always issues a first "get updates" request with
    offset one past the prior cursor; when that request returns a batch it
    issues exactly one more, with offset one past the new cursor, and when
    that second request succeeds, whatever it carries, the caller gets the
    batch of the first request. *)
Theorem get_updates_two_requests :
  forall (e : env) (self : TGNotifier) (w : io) (limit timeout : Z)
         (au : list string),
    let out := get_updates limit timeout au e self w in
    let self' := snd (fst out) in
    let req1 :=
      mk_request GET (bot_url self ++ "/getUpdates")
        (Some (GetUpdates (last_update_id self + 1) limit timeout ["message"])) in
    let req2 :=
      mk_request GET (bot_url self ++ "/getUpdates")
        (Some (GetUpdates (last_update_id self' + 1) limit timeout ["message"])) in
    (exists rest, sent (snd out) = (sent w ++ req1 :: rest)%list)
    /\ (forall b,
          first_batch e self w limit timeout = Some b ->
          sent (snd out) = (sent w ++ [req1; req2])%list
          /\ (forall j,
                decoded (net e (S (List.length (sent w))) req2) = Some j ->
                fst (fst out) = Ok b)).
Proof.
  intros e self w limit timeout au out self' req1 req2.
  destruct (first_batch e self w limit timeout) as [b|] eqn:Hb.
  - destruct (get_updates_batch e self w limit timeout au b Hb)
      as (r & Hrun & Hok & _).
    assert (Hs : self' = with_cursor self
                           (max_update_id (last_update_id self) b))
      by (unfold self', out; rewrite Hrun; reflexivity).
    assert (Hsent : sent (snd out) = (sent w ++ [req1; req2])%list).
    { unfold out. rewrite Hrun. unfold req2. rewrite Hs. simpl.
      rewrite <- app_assoc. reflexivity. }
    split.
    + exists [req2]. exact Hsent.
    + intros b0 Hb0. injection Hb0 as <-. split; [exact Hsent|].
      intros j Hj. unfold out. rewrite Hrun. simpl.
      apply (Hok j). unfold req2 in Hj. rewrite Hs in Hj. exact Hj.
  - destruct (get_updates_no_batch e self w limit timeout au Hb) as [x Hrun].
    split.
    + exists []. unfold out. rewrite Hrun. reflexivity.
    + intros b Hb0. discriminate Hb0.
Qed.

(** Witness for C4: two requests with offsets 1 and 8, the first batch back. *)
Lemma get_updates_two_requests_witness :
  let e := updates_env [plain_update 7 1 "A"; plain_update 5 2 "B"] in
  let out := get_updates 100 0 ["message"] e (sample_notifier []) io0 in
  sent (snd out)
  = [mk_request GET "https://api.telegram.org/botKEY/getUpdates"
       (Some (GetUpdates 1 100 0 ["message"]));
     mk_request GET "https://api.telegram.org/botKEY/getUpdates"
       (Some (GetUpdates 8 100 0 ["message"]))]
  /\ fst (fst out) = Ok [plain_update 7 1 "A"; plain_update 5 2 "B"].
Proof.
  intros e out.
  destruct (proj2 (get_updates_two_requests e (sample_notifier []) io0 100 0
                     ["message"])
              [plain_update 7 1 "A"; plain_update 5 2 "B"] eq_refl)
    as [Hsent Hret].
  split.
  - exact Hsent.
  - apply (Hret (JUpdates [])). reflexivity.
Defined.

(** ** Properties of the broadcast *)

Lemma try_except_TG_Ok {S A B : Type} (m : M S A) (h : string -> M S B)
  (k : A -> M S B) (e : env) (s s' : S) (w w' : io) (a : A) :
  m e s w = (Ok a, s', w') -> try_except_TG m h k e s w = k a e s' w'.
Proof. unfold try_except_TG. now intros ->. Qed.

Lemma try_except_TG_caught {S A B : Type} (m : M S A) (h : string -> M S B)
  (k : A -> M S B) (e : env) (s s' : S) (w w' : io) (msg : string) :
  m e s w = (Raise (TGException msg), s', w') ->
  try_except_TG m h k e s w = h msg e s' w'.
Proof. unfold try_except_TG. now intros ->. Qed.

(** One delivery attempt: the request goes out, the notifier is untouched. *)
Lemma send_run (with_host : bool) (chat_id : chat_key) (msg : string)
  (notify : bool) (e : env) (self : TGNotifier) (w : io) :
  let req := delivery_request e self msg with_host notify chat_id in
  let ans := net e (List.length (sent w)) req in
  exists r,
    (if with_host then send_host_msg chat_id msg notify
     else send_msg chat_id msg notify) e self w
    = (r, self, record_sent w req)
    /\ (request_fails ans = true -> exists m, r = Raise (TGException m))
    /\ (delivered ans = true -> r = Ok tt).
Proof.
  intros req ans.
  assert (H : exists r,
             send_msg chat_id (delivery_text e msg with_host) notify e self w
             = (r, self, record_sent w req)
             /\ (request_fails ans = true -> exists m, r = Raise (TGException m))
             /\ (delivered ans = true -> r = Ok tt)).
  { unfold send_msg.
    destruct (post_run e self w "sendMessage"
                (Some (SendMessage chat_id (delivery_text e msg with_host)
                         "markdown" notify)))
      as (r & Hrun & Hfail & Hok).
    fold (delivery_request e self msg with_host notify chat_id) in Hrun, Hfail, Hok.
    fold req in Hrun, Hfail, Hok. fold ans in Hfail, Hok.
    destruct r as [j|x].
    - erewrite bind_Ok by exact Hrun. eexists. split; [reflexivity|].
      split; [|reflexivity].
      intros Hf. destruct (Hfail Hf) as [m Hm]. discriminate Hm.
    - erewrite bind_Raise by exact Hrun. eexists. split; [reflexivity|].
      split.
      + intros Hf. destruct (Hfail Hf) as [m Hm]. injection Hm as ->.
        now eexists.
      + unfold delivered. intros Hd.
        destruct (decoded ans) as [j|] eqn:D; [|discriminate].
        unfold ans, req, delivery_request in D.
        rewrite (post_decoded _ _ _ _ _ _ D) in Hrun. discriminate Hrun. }
  destruct with_host; exact H.
Qed.

Lemma try_except_TG_other {S A B : Type} (m : M S A) (h : string -> M S B)
  (k : A -> M S B) (e : env) (s s' : S) (w w' : io) (x : exn) :
  (forall msg, x <> TGException msg) ->
  m e s w = (Raise x, s', w') ->
  try_except_TG m h k e s w = (Raise x, s', w').
Proof.
  unfold try_except_TG. intros Hx ->.
  destruct x; try reflexivity. now destruct (Hx msg).
Qed.

Lemma bind_try_other {S A B C : Type} {m : M S A} {h : string -> M S B}
  {k : A -> M S B} (f : B -> M S C) {e : env} {s s' : S} {w w' : io} {x : exn} :
  m e s w = (Raise x, s', w') ->
  (forall msg, x <> TGException msg) ->
  bind (try_except_TG m h k) f e s w = (Raise x, s', w').
Proof.
  intros Hm Hx. apply bind_Raise. now apply try_except_TG_other.
Qed.

Lemma fails_not_delivered (r : net_result) :
  request_fails r = true -> delivered r = false.
Proof.
  unfold request_fails, delivered, decoded. destruct r as [|res]; [reflexivity|].
  destruct (status_code res =? 200); [discriminate | reflexivity].
Qed.

Lemma count_settled (rs : list net_result) :
  forallb settled rs = true ->
  count delivered rs = Z.of_nat (List.length rs) - count request_fails rs.
Proof.
  unfold count. induction rs as [|r rs IH]; [reflexivity|].
  simpl forallb. intros H. apply andb_prop in H. destruct H as [Hr Hrs].
  specialize (IH Hrs). unfold settled in Hr. simpl filter.
  destruct (request_fails r) eqn:Hf.
  - rewrite (fails_not_delivered r Hf). simpl List.length. lia.
  - simpl in Hr. rewrite Hr. simpl List.length. lia.
Qed.

(** The loop never touches the notifier, and what it sends is a prefix of
    the delivery attempts for the registered chats in their stored order. *)
Lemma broadcast_loop_frame (msg : string) (with_host notify : bool) (e : env)
  (self : TGNotifier) :
  forall (items : dict) (num_success num_failure : Z) (w : io),
  exists r w' k,
    broadcast_loop items msg with_host notify num_success num_failure e self w
    = (r, self, w')
    /\ sent w'
       = (sent w
          ++ firstn k (map (delivery_request e self msg with_host notify)
                         (dict_keys items)))%list.
Proof.
  induction items as [|[chat_id name] rest IH]; intros ns nf w.
  - exists (Ok (ns, nf)), w, 0%nat. split; [reflexivity|].
    simpl. now rewrite app_nil_r.
  - cbn [broadcast_loop].
    erewrite bind_Ok by reflexivity.
    match goal with
    | |- context [bind _ _ e self ?w0] => set (w1 := w0)
    end.
    destruct (send_run with_host chat_id msg notify e self w1)
      as (r & Hrun & _ & _).
    set (req := delivery_request e self msg with_host notify chat_id) in *.
    assert (Hw1 : sent (record_sent w1 req) = (sent w ++ [req])%list)
      by reflexivity.
    destruct r as [[]|x].
    + erewrite bind_Ok
        by (erewrite try_except_TG_Ok by exact Hrun; reflexivity).
      destruct (IH (ns + 1) nf (record_sent w1 req)) as (r & w' & k & Hl & Hs).
      exists r, w', (S k). split; [exact Hl|].
      rewrite Hs, Hw1. cbn [dict_keys map fst firstn]. fold req.
      now rewrite <- app_assoc.
    + assert (Hx : (exists m, x = TGException m)
                   \/ (forall m, x <> TGException m))
        by (destruct x; [left; now eexists | right; intros; discriminate ..]).
      destruct Hx as [[m ->]|Hx].
      * erewrite bind_Ok
          by (erewrite try_except_TG_caught by exact Hrun;
              erewrite bind_Ok by reflexivity; reflexivity).
        match goal with
        | |- context [broadcast_loop _ _ _ _ _ _ e self ?w0] => set (w2 := w0)
        end.
        destruct (IH ns (nf + 1) w2) as (r & w' & k & Hl & Hs).
        exists r, w', (S k). split; [exact Hl|].
        rewrite Hs. change (sent w2) with (sent (record_sent w1 req)).
        rewrite Hw1. cbn [dict_keys map fst firstn]. fold req.
        now rewrite <- app_assoc.
      * rewrite (bind_try_other _ Hrun) by exact Hx.
        exists (Raise x), (record_sent w1 req), 1%nat.
        split; [reflexivity|]. rewrite Hw1. reflexivity.
Qed.

Lemma count_cons (p : net_result -> bool) (r : net_result)
  (rs : list net_result) :
  count p (r :: rs) = (if p r then 1 else 0) + count p rs.
Proof.
  unfold count. simpl filter. destruct (p r); simpl List.length; lia.
Qed.

(** When every delivery either raises [TGException] or goes through, the loop
    attempts every recipient and counts each attempt on the right side. *)
Lemma broadcast_loop_settled (msg : string) (with_host notify : bool) (e : env)
  (self : TGNotifier) :
  forall (items : dict) (num_success num_failure : Z) (w : io),
    let reqs := map (delivery_request e self msg with_host notify)
                  (dict_keys items) in
    let rs := answers e (List.length (sent w)) reqs in
    forallb settled rs = true ->
    exists w',
      broadcast_loop items msg with_host notify num_success num_failure e self w
      = (Ok (num_success + count delivered rs,
             num_failure + count request_fails rs), self, w')
      /\ sent w' = (sent w ++ reqs)%list.
Proof.
  induction items as [|[chat_id name] rest IH]; intros ns nf w reqs rs Hall.
  - exists w. subst rs reqs. cbn. rewrite !Z.add_0_r, app_nil_r. now split.
  - subst rs reqs. cbn [dict_keys map fst answers] in *.
    set (req := delivery_request e self msg with_host notify chat_id) in *.
    cbn [forallb] in Hall. apply andb_prop in Hall. destruct Hall as [Hr Hrest].
    cbn [broadcast_loop].
    erewrite bind_Ok by reflexivity.
    match goal with
    | |- context [bind _ _ e self ?w0] => set (w1 := w0)
    end.
    destruct (send_run with_host chat_id msg notify e self w1)
      as (r & Hrun & Hfail & Hok).
    fold req in Hrun, Hfail, Hok.
    change (List.length (sent w1)) with (List.length (sent w)) in Hfail, Hok.
    rewrite !count_cons.
    destruct (request_fails (net e (List.length (sent w)) req)) eqn:Hf.
    + rewrite (fails_not_delivered _ Hf).
      destruct (Hfail eq_refl) as [m ->].
      erewrite bind_Ok
        by (erewrite try_except_TG_caught by exact Hrun;
            erewrite bind_Ok by reflexivity; reflexivity).
      match goal with
      | |- context [broadcast_loop _ _ _ _ _ _ e self ?w0] => set (w2 := w0)
      end.
      assert (L2 : List.length (sent w2) = S (List.length (sent w)))
        by apply (sent_record_sent w1 req).
      specialize (IH ns (nf + 1) w2). cbv zeta in IH. rewrite L2 in IH.
      destruct (IH Hrest) as (w' & Hl & Hs).
      exists w'. split.
      * cbn [fst snd]. rewrite Hl, Z.add_0_l, Z.add_assoc. reflexivity.
      * rewrite Hs. change (sent w2) with (sent w ++ [req])%list.
        now rewrite <- app_assoc.
    + unfold settled in Hr. rewrite Hf in Hr. simpl in Hr. rewrite Hr.
      rewrite (Hok Hr) in Hrun.
      erewrite bind_Ok
        by (erewrite try_except_TG_Ok by exact Hrun; reflexivity).
      assert (L2 : List.length (sent (record_sent w1 req))
                   = S (List.length (sent w)))
        by apply (sent_record_sent w1 req).
      specialize (IH (ns + 1) nf (record_sent w1 req)). cbv zeta in IH.
      rewrite L2 in IH.
      destruct (IH Hrest) as (w' & Hl & Hs).
      exists w'. split.
      * cbn [fst snd]. rewrite Hl, Z.add_0_l, Z.add_assoc. reflexivity.
      * rewrite Hs. change (sent (record_sent w1 req)) with (sent w ++ [req])%list.
        now rewrite <- app_assoc.
Qed.

Lemma length_answers (e : env) (reqs : list request) :
  forall k, List.length (answers e k reqs) = List.length reqs.
Proof.
  induction reqs as [|r reqs IH]; intros k; simpl; [reflexivity|].
  now rewrite IH.
Qed.

(** C1 as the code has it.  When every delivery either raises [TGException]
    or goes through, [broadcast] attempts every registered chat in stored
    order, its loop ends with the counters [N - F] and [F], its closing log
    line reports them, and the value it returns is the failure count [F]
    alone. *)
Theorem broadcast_counts :
  forall (e : env) (self : TGNotifier) (w : io) (msg : string)
         (with_host notify : bool),
    let items := registered_chats self in
    let reqs := map (delivery_request e self msg with_host notify)
                  (dict_keys items) in
    let rs := answers e (List.length (sent w)) reqs in
    let N := Z.of_nat (List.length items) in
    let F := count request_fails rs in
    forallb settled rs = true ->
    let out := broadcast msg with_host notify e self w in
    fst (fst out) = Ok F
    /\ sent (snd out) = (sent w ++ reqs)%list
    /\ fst (fst (broadcast_loop items msg with_host notify 0 0 e self w))
       = Ok (N - F, F)
    /\ last (logged (snd out)) (DEBUG, "") = (INFO, done_sending (N - F) F).
Proof.
  intros e self w msg with_host notify items reqs rs N F Hall out.
  destruct (broadcast_loop_settled msg with_host notify e self items 0 0 w Hall)
    as (w' & Hloop & Hsent).
  fold reqs in Hloop, Hsent. fold rs in Hloop.
  assert (HN : count delivered rs = N - F).
  { rewrite (count_settled rs Hall). unfold N, F. f_equal.
    unfold rs, reqs, dict_keys. now rewrite length_answers, !length_map. }
  rewrite !Z.add_0_l, HN in Hloop. fold F in Hloop.
  assert (Hrun : out = (Ok F, self,
                        mk_io (sent w')
                          (logged w' ++ [(INFO, done_sending (N - F) F)])
                          (probed w') (written w') (ensured w'))).
  { unfold out, broadcast.
    erewrite bind_Ok by reflexivity.
    erewrite bind_Ok by exact Hloop.
    erewrite bind_Ok by reflexivity. reflexivity. }
  rewrite Hrun, Hloop. cbn [fst snd sent logged].
  repeat split; try assumption.
  apply last_last.
Qed.

(** Witness for C1: Alice is delivered, Bob's delivery answers 400. *)
Lemma broadcast_counts_witness :
  let e := sample_env [] false
             (fun k _ => match k with
                         | O => json_response 200 JOther
                         | _ => json_response 400 JOther
                         end) in
  let out := broadcast "hi" false false e (sample_notifier alice_bob) io0 in
  fst (fst out) = Ok 1
  /\ last (logged (snd out)) (DEBUG, "")
     = (INFO, "Done sending messages, 1 successful, 1 failed.").
Proof.
  intros e out.
  destruct (broadcast_counts e (sample_notifier alice_bob) io0 "hi" false false
              eq_refl) as (Hret & _ & _ & Hlog).
  split; [exact Hret | exact Hlog].
Defined.

(** C1 as stated fails: the value [broadcast] returns is the failure count
    only.  An empty registry and a registry of two delivered chats both
    return 0, so no reading of the returned value as an outcome has
    [successCount = N - F] in both runs. *)
Lemma broadcast_returns_no_success_count :
  let e := sample_env [] false always_ok in
  ~ exists outcome_of : Z -> BroadcastOutcome,
      forall d, In d [[]; alice_bob] ->
        exists ret,
          fst (fst (broadcast "hi" false false e (sample_notifier d) io0))
          = Ok ret
          /\ successCount (outcome_of ret)
             = Z.of_nat (List.length d)
               - count request_fails
                   (answers e 0
                      (map (delivery_request e (sample_notifier d) "hi"
                              false false) (dict_keys d)))
          /\ failureCount (outcome_of ret)
             = count request_fails
                 (answers e 0
                    (map (delivery_request e (sample_notifier d) "hi"
                            false false) (dict_keys d))).
Proof.
  intros e [outcome_of H].
  destruct (H [] (or_introl eq_refl)) as (r0 & E0 & S0 & _).
  destruct (H alice_bob (or_intror (or_introl eq_refl))) as (r1 & E1 & S1 & _).
  assert (R0 : r0 = 0) by (vm_compute in E0; now injection E0).
  assert (R1 : r1 = 0) by (vm_compute in E1; now injection E1).
  subst r0 r1. rewrite S0 in S1. vm_compute in S1. discriminate S1.
Qed.

(** Every request [broadcast] sends is a delivery attempt carrying [notify]
    itself in [disable_notification]. *)
Lemma broadcast_sends_notify (e : env) (self : TGNotifier) (w : io)
  (msg : string) (with_host notify : bool) :
  exists k,
    sent (snd (broadcast msg with_host notify e self w))
    = (sent w
       ++ firstn k
            (map (fun chat_id =>
                    api_request self POST "sendMessage"
                      (Some (SendMessage chat_id (delivery_text e msg with_host)
                               "markdown" notify)))
               (dict_keys (registered_chats self))))%list.
Proof.
  destruct (broadcast_loop_frame msg with_host notify e self
              (registered_chats self) 0 0 w) as (r & w' & k & Hloop & Hsent).
  exists k. unfold broadcast.
  erewrite bind_Ok by reflexivity.
  destruct r as [c|x].
  - erewrite bind_Ok by exact Hloop.
    erewrite bind_Ok by reflexivity. exact Hsent.
  - erewrite bind_Raise by exact Hloop. exact Hsent.
Qed.

(** C2 at the failing input.  With [--mute] the only recipient is sent a
    payload whose [disable_notification] is false: the notification is not
    silenced. *)
Theorem main_send_mute_payload :
  sent (snd (main_send ["hi"] true (sample_env [] false always_ok)
               (sample_notifier [(KStr "1", "Alice")]) io0))
  = [mk_request POST "https://api.telegram.org/botKEY/sendMessage"
       (Some (SendMessage (KStr "1") ("hi" ++ nl ++ "_from_ `box`")
                "markdown" false))].
Proof. reflexivity. Qed.

(** Without [--mute] the payload asks for silence. *)
Lemma main_send_loud_payload :
  sent (snd (main_send ["hi"] false (sample_env [] false always_ok)
               (sample_notifier [(KStr "1", "Alice")]) io0))
  = [mk_request POST "https://api.telegram.org/botKEY/sendMessage"
       (Some (SendMessage (KStr "1") ("hi" ++ nl ++ "_from_ `box`")
                "markdown" true))].
Proof. reflexivity. Qed.

(** C10.  [broadcast] leaves the notifier as it found it: the registered
    chats, the credential and the update cursor are unchanged, whatever the
    registry, the message, the flags and the answers of the network. *)
Theorem broadcast_frame :
  forall (e : env) (self : TGNotifier) (w : io) (msg : string)
         (with_host notify : bool),
    let self' := snd (fst (broadcast msg with_host notify e self w)) in
    registered_chats self' = registered_chats self
    /\ api_key self' = api_key self
    /\ last_update_id self' = last_update_id self
    /\ self' = self.
Proof.
  intros e self w msg with_host notify self'.
  assert (H : self' = self).
  { unfold self', broadcast.
    destruct (broadcast_loop_frame msg with_host notify e self
                (registered_chats self) 0 0 w) as (r & w' & k & Hloop & _).
    erewrite bind_Ok by reflexivity.
    destruct r as [c|x].
    - erewrite bind_Ok by exact Hloop.
      erewrite bind_Ok by reflexivity. reflexivity.
    - erewrite bind_Raise by exact Hloop. reflexivity. }
  rewrite H. repeat split.
Qed.

(** ** Properties of the chat registry *)

Lemma key_eqb_eq (a b : chat_key) : key_eqb a b = true <-> a = b.
Proof.
  destruct a as [s|x], b as [t|y]; simpl.
  - rewrite String.eqb_eq. split; [now intros -> | now intros [= ->]].
  - split; discriminate.
  - split; discriminate.
  - rewrite Z.eqb_eq. split; [now intros -> | now intros [= ->]].
Qed.

Lemma key_eqb_refl (a : chat_key) : key_eqb a a = true.
Proof. now apply key_eqb_eq. Qed.

Lemma key_eqb_neq (a b : chat_key) : key_eqb a b = false <-> a <> b.
Proof.
  rewrite <- key_eqb_eq. destruct (key_eqb a b); split; congruence.
Qed.

Lemma key_eq_dec (a b : chat_key) : {a = b} + {a <> b}.
Proof.
  destruct (key_eqb a b) eqn:E;
    [left; now apply key_eqb_eq | right; now apply key_eqb_neq].
Defined.

(** Reading after writing. *)
Lemma dict_get_set (d : dict) (k k' : chat_key) (v : string) :
  dict_get (dict_set d k v) k'
  = if key_eqb k k' then Some v else dict_get d k'.
Proof.
  induction d as [|[k0 v0] d IH]; simpl; [reflexivity|].
  destruct (key_eqb k0 k) eqn:E0; simpl.
  - apply key_eqb_eq in E0. subst k0.
    now destruct (key_eqb k k').
  - rewrite IH. destruct (key_eqb k k') eqn:E; [|reflexivity].
    apply key_eqb_eq in E. subst k'. now rewrite E0.
Qed.

Lemma dict_set_present (d : dict) (k : chat_key) (v : string) :
  In k (dict_keys d) -> dict_keys (dict_set d k v) = dict_keys d.
Proof.
  induction d as [|[k0 v0] d IH]; simpl; [contradiction|].
  destruct (key_eqb k0 k) eqn:E0; simpl; [reflexivity|].
  intros [H|H]; [subst k0; now rewrite key_eqb_refl in E0|].
  now rewrite (IH H).
Qed.

Lemma dict_set_absent (d : dict) (k : chat_key) (v : string) :
  ~ In k (dict_keys d) -> dict_set d k v = (d ++ [(k, v)])%list.
Proof.
  induction d as [|[k0 v0] d IH]; simpl; [reflexivity|].
  intros H. destruct (key_eqb k0 k) eqn:E0.
  - apply key_eqb_eq in E0. tauto.
  - rewrite IH; [reflexivity | tauto].
Qed.

Lemma dict_set_keeps (d : dict) (k k' : chat_key) (v : string) :
  In k' (dict_keys d) -> In k' (dict_keys (dict_set d k v)).
Proof.
  intros H. destruct (in_dec key_eq_dec k (dict_keys d)) as [Hk|Hk].
  - now rewrite dict_set_present.
  - rewrite dict_set_absent by exact Hk. unfold dict_keys.
    rewrite map_app. apply in_or_app. now left.
Qed.

Lemma dict_set_adds (d : dict) (k : chat_key) (v : string) :
  In k (dict_keys (dict_set d k v)).
Proof.
  destruct (in_dec key_eq_dec k (dict_keys d)) as [Hk|Hk].
  - now rewrite dict_set_present.
  - rewrite dict_set_absent by exact Hk. unfold dict_keys.
    rewrite map_app. apply in_or_app. right. now left.
Qed.

(** Writing the same key twice keeps the second value. *)
Lemma dict_set_set (d : dict) (k : chat_key) (v v' : string) :
  dict_set (dict_set d k v') k v = dict_set d k v.
Proof.
  induction d as [|[k0 v0] d IH]; simpl.
  - now rewrite key_eqb_refl.
  - destruct (key_eqb k0 k) eqn:E0; simpl; rewrite E0; [reflexivity|].
    now rewrite IH.
Qed.

(** Writes to two different keys already present commute. *)
Lemma dict_set_comm (d : dict) (k k' : chat_key) (v v' : string) :
  k <> k' -> In k (dict_keys d) -> In k' (dict_keys d) ->
  dict_set (dict_set d k' v') k v = dict_set (dict_set d k v) k' v'.
Proof.
  intros Hne. induction d as [|[k0 v0] d IH]; simpl; [contradiction|].
  intros Hk Hk'.
  destruct (key_eqb k0 k') eqn:E', (key_eqb k0 k) eqn:E; simpl;
    rewrite ?E, ?E'; try reflexivity.
  - apply key_eqb_eq in E, E'. congruence.
  - apply key_eqb_neq in E, E'. f_equal. apply IH; tauto.
Qed.

Lemma dict_set_app_present (d t : dict) (k : chat_key) (v : string) :
  In k (dict_keys d) -> dict_set (d ++ t)%list k v = (dict_set d k v ++ t)%list.
Proof.
  induction d as [|[k0 v0] d IH]; simpl; [contradiction|].
  destruct (key_eqb k0 k) eqn:E0; simpl; [reflexivity|].
  intros [H|H]; [subst k0; now rewrite key_eqb_refl in E0|].
  now rewrite (IH H).
Qed.

Lemma dict_set_app_absent (d t : dict) (k : chat_key) (v : string) :
  ~ In k (dict_keys d) -> dict_set (d ++ t)%list k v = (d ++ dict_set t k v)%list.
Proof.
  induction d as [|[k0 v0] d IH]; simpl; [reflexivity|].
  intros H. destruct (key_eqb k0 k) eqn:E0.
  - apply key_eqb_eq in E0. tauto.
  - rewrite IH; [reflexivity | tauto].
Qed.

Lemma dict_update_cons (d other : dict) (k : chat_key) (v : string) :
  dict_update d ((k, v) :: other) = dict_update (dict_set d k v) other.
Proof. reflexivity. Qed.

Lemma dict_update_snoc (d other : dict) (k : chat_key) (v : string) :
  dict_update d (other ++ [(k, v)])%list = dict_set (dict_update d other) k v.
Proof. unfold dict_update. now rewrite fold_left_app. Qed.

Lemma dict_update_keeps (other : dict) :
  forall (d : dict) (k : chat_key),
    In k (dict_keys d) -> In k (dict_keys (dict_update d other)).
Proof.
  induction other as [|[k1 v1] other IH]; intros d k H; [exact H|].
  rewrite dict_update_cons. apply IH. now apply dict_set_keeps.
Qed.

Lemma dict_update_adds (other : dict) :
  forall (d : dict) (k : chat_key),
    In k (dict_keys other) -> In k (dict_keys (dict_update d other)).
Proof.
  induction other as [|[k1 v1] other IH]; intros d k H; [contradiction|].
  rewrite dict_update_cons. destruct H as [H|H].
  - simpl in H. subst k1. apply dict_update_keeps, dict_set_adds.
  - now apply IH.
Qed.

Lemma dict_update_app (other : dict) :
  forall (d t : dict),
    (forall k, In k (dict_keys other) -> In k (dict_keys d)) ->
    dict_update (d ++ t)%list other = (dict_update d other ++ t)%list.
Proof.
  induction other as [|[k1 v1] other IH]; intros d t H; [reflexivity|].
  rewrite !dict_update_cons.
  rewrite dict_set_app_present by (apply H; now left).
  apply IH. intros k Hk. apply dict_set_keeps, H. now right.
Qed.

(** A write absorbs an earlier write of the same key across an update that
    only touches keys already present. *)
Lemma dict_update_absorb (other : dict) :
  forall (d : dict) (k : chat_key) (v : string),
    (forall k', In k' (dict_keys other) -> In k' (dict_keys d)) ->
    In k (dict_keys d) ->
    dict_set (dict_update (dict_set d k v) other) k v
    = dict_set (dict_update d other) k v.
Proof.
  induction other as [|[k1 v1] other IH]; intros d k v Hsub Hk.
  - simpl. apply dict_set_set.
  - rewrite !dict_update_cons.
    destruct (key_eq_dec k1 k) as [->|Hne].
    + now rewrite dict_set_set.
    + rewrite dict_set_comm; [|exact Hne|apply Hsub; now left|exact Hk].
      apply IH.
      * intros k' Hk'. apply dict_set_keeps, Hsub. now right.
      * now apply dict_set_keeps.
Qed.

(** C9.  Merging the same entries twice yields the same mapping, in the
    same order, as merging them once. *)
Theorem dict_update_idempotent :
  forall (d new_chats : dict),
    dict_update (dict_update d new_chats) new_chats = dict_update d new_chats.
Proof.
  intros d new_chats. revert d.
  induction new_chats as [|[k v] other IH] using rev_ind; intros d;
    [reflexivity|].
  rewrite !dict_update_snoc.
  set (X := dict_update d other).
  assert (Hsub : forall k', In k' (dict_keys other) -> In k' (dict_keys X))
    by (intros k' Hk'; now apply dict_update_adds).
  destruct (in_dec key_eq_dec k (dict_keys X)) as [Hk|Hk].
  - rewrite dict_update_absorb by assumption.
    unfold X. now rewrite IH.
  - rewrite (dict_set_absent X k v Hk).
    rewrite dict_update_app by exact Hsub.
    unfold X at 1. rewrite IH. fold X.
    rewrite dict_set_app_absent by exact Hk.
    simpl. now rewrite key_eqb_refl.
Qed.

(** The same on the notifier: a second [registered_chats.update] with the
    same entries changes nothing. *)
Lemma registered_chats_update_twice (new_chats : dict) (e : env)
  (self : TGNotifier) (w : io) :
  (registered_chats_update new_chats ;;; registered_chats_update new_chats)
    e self w
  = registered_chats_update new_chats e self w.
Proof.
  unfold registered_chats_update, set_registered_chats, bind, get_self,
    put_self. simpl. now rewrite dict_update_idempotent.
Qed.

Lemma dict_get_absent (d : dict) (k : chat_key) :
  ~ In k (dict_keys d) -> dict_get d k = None.
Proof.
  induction d as [|[k0 v0] d IH]; simpl; [reflexivity|].
  intros H. destruct (key_eqb k0 k) eqn:E.
  - apply key_eqb_eq in E. tauto.
  - apply IH. tauto.
Qed.

Lemma dict_set_NoDup (d : dict) (k : chat_key) (v : string) :
  NoDup (dict_keys d) -> NoDup (dict_keys (dict_set d k v)).
Proof.
  intros H. destruct (in_dec key_eq_dec k (dict_keys d)) as [Hk|Hk].
  - now rewrite dict_set_present.
  - rewrite dict_set_absent by exact Hk. unfold dict_keys.
    rewrite map_app. simpl. apply NoDup_rev in H.
    rewrite <- (rev_involutive (map fst d ++ [k])), rev_app_distr.
    apply NoDup_rev. simpl. constructor; [|exact H].
    now rewrite <- in_rev.
Qed.

Lemma dict_update_NoDup (other : dict) :
  forall d, NoDup (dict_keys d) -> NoDup (dict_keys (dict_update d other)).
Proof.
  induction other as [|[k v] other IH]; intros d H; [exact H|].
  rewrite dict_update_cons. now apply IH, dict_set_NoDup.
Qed.

(** Reading an updated dict: the other dict's entry wins. *)
Lemma dict_get_update (other : dict) :
  forall (d : dict) (k : chat_key),
    NoDup (dict_keys other) ->
    dict_get (dict_update d other) k = overwrite_union_get d other k.
Proof.
  unfold overwrite_union_get.
  induction other as [|[k1 v1] other IH]; intros d k H; [reflexivity|].
  rewrite dict_update_cons. simpl in H. inversion H as [|? ? Hnot Hrest]; subst.
  rewrite (IH _ _ Hrest), dict_get_set. simpl.
  destruct (key_eqb k1 k) eqn:E; [|reflexivity].
  apply key_eqb_eq in E. subst k1.
  now rewrite (dict_get_absent other k Hnot).
Qed.

(** The extraction loop on updates that all carry a message. *)
Lemma recent_chats_loop_run (e : env) (self : TGNotifier) (w : io) :
  forall (updates : list update) (msgs : list message) (acc : dict),
    map upd_message updates = map Some msgs ->
    exists new,
      recent_chats_loop updates acc e self w = (Ok new, self, w)
      /\ (NoDup (dict_keys acc) -> NoDup (dict_keys new))
      /\ (forall id,
            dict_get new (KInt id)
            = match latest_name msgs id with
              | Some n => Some n
              | None => dict_get acc (KInt id)
              end)
      /\ (forall s, dict_get new (KStr s) = dict_get acc (KStr s)).
Proof.
  induction updates as [|u updates IH]; intros msgs acc Hm.
  - destruct msgs; [|discriminate]. exists acc. now repeat split.
  - destruct msgs as [|m msgs]; [discriminate|].
    simpl in Hm. injection Hm as Hu Hrest.
    cbn [recent_chats_loop]. rewrite Hu.
    destruct (IH msgs (dict_set acc (KInt (chat_id (msg_chat m)))
                         (chat_name (msg_chat m))) Hrest)
      as (new & Hrun & Hnd & Hint & Hstr).
    exists new. split; [exact Hrun|]. split; [|split].
    + intros H. now apply Hnd, dict_set_NoDup.
    + intros id. rewrite Hint, dict_get_set. simpl.
      destruct (latest_name msgs id); [reflexivity|].
      now destruct (chat_id (msg_chat m) =? id).
    + intros s. now rewrite Hstr, dict_get_set.
Qed.

(** X22.  When discovery pulls a batch whose updates carry the messages
    [msgs], the returned mapping has [int] keys only and gives every chat
    the name of its latest message, and the registry afterwards reads every
    key (compared as Python compares keys, a [str] and an [int] apart) from
    the returned mapping first and from the old registry otherwise. *)
Theorem add_recent_chats_overwrite_union :
  forall (e : env) (self : TGNotifier) (w : io) (b : list update)
         (msgs : list message) (j : json_value),
    first_batch e self w 100 0 = Some b ->
    map upd_message b = map Some msgs ->
    decoded (net e (S (List.length (sent w)))
               (updates_request
                  (with_cursor self (max_update_id (last_update_id self) b))
                  100 0)) = Some j ->
    let out := add_recent_chats e self w in
    exists new,
      fst (fst out) = Ok new
      /\ NoDup (dict_keys new)
      /\ (forall id, dict_get new (KInt id) = latest_name msgs id)
      /\ (forall s, dict_get new (KStr s) = None)
      /\ (forall k,
            dict_get (registered_chats (snd (fst out))) k
            = overwrite_union_get (registered_chats self) new k).
Proof.
  intros e self w b msgs j Hb Hm Hsecond out.
  destruct (get_updates_batch e self w 100 0 ["message"] b Hb)
    as (r & Hrun & Hok & _).
  rewrite (Hok j Hsecond) in Hrun.
  set (self1 := with_cursor self (max_update_id (last_update_id self) b)) in *.
  match type of Hrun with _ = (_, _, ?w0) => set (w1 := w0) in * end.
  destruct (recent_chats_loop_run e self1 w1 b msgs [] Hm)
    as (new & Hloop & Hnd & Hint & Hstr).
  exists new.
  assert (Hout : out = (Ok new,
                        {| config_file_path := config_file_path self1;
                           api_key := api_key self1;
                           bot_url := bot_url self1;
                           last_update_id := last_update_id self1;
                           registered_chats :=
                             dict_update (registered_chats self1) new |},
                        w1)).
  { unfold out, add_recent_chats, get_recent_chats.
    erewrite bind_Ok
      by (erewrite bind_Ok by exact Hrun; exact Hloop).
    erewrite bind_Ok by reflexivity. reflexivity. }
  rewrite Hout. cbn [fst snd registered_chats].
  split; [reflexivity|]. split; [apply Hnd; constructor|].
  split; [|split].
  - intros id. rewrite Hint. now destruct (latest_name msgs id).
  - intros s. now rewrite Hstr.
  - intros k. apply dict_get_update, Hnd. constructor.
Qed.

(** Witness for X22: chat 7 writes twice under different names while the
    registry knows it under the [int] key of an earlier discovery; only the
    later name is kept. *)
Lemma add_recent_chats_overwrite_union_witness :
  let b := [plain_update 1 7 "Ann"; plain_update 2 7 "Anna"] in
  let out := add_recent_chats (updates_env b)
               (sample_notifier [(KInt 7, "Old"); (KInt 8, "Bob")]) io0 in
  exists new,
    fst (fst out) = Ok new
    /\ dict_get new (KInt 7) = Some "Anna <no last name> (@<no username>)"
    /\ dict_get (registered_chats (snd (fst out))) (KInt 7)
       = Some "Anna <no last name> (@<no username>)"
    /\ dict_get (registered_chats (snd (fst out))) (KInt 8) = Some "Bob".
Proof.
  intros b out.
  destruct (add_recent_chats_overwrite_union (updates_env b)
              (sample_notifier [(KInt 7, "Old"); (KInt 8, "Bob")]) io0 b
              (map (fun u => match upd_message u with
                             | Some m => m
                             | None => mk_message (mk_chat 0 None None None) None
                             end) b)
              (JUpdates []) eq_refl eq_refl eq_refl)
    as (new & Hret & _ & Hnew & _ & Hreg).
  fold out in Hret, Hreg.
  exists new. split; [exact Hret|]. split; [exact (Hnew 7)|].
  split.
  - rewrite (Hreg (KInt 7)). unfold overwrite_union_get.
    rewrite (Hnew 7). reflexivity.
  - rewrite (Hreg (KInt 8)). unfold overwrite_union_get.
    rewrite (Hnew 8). reflexivity.
Defined.

(** A registry loaded from the config file has [str] keys, discovery inserts
    [int] keys: the entry "7" of the file and the chat 7 of a new message
    are two entries of the dict. *)
(** C8 at the failing input.  The config file registers chat "7" as "Old";
    [create] loads it under the [str] key, a message from chat 7 is extracted
    under the [int] key, and the merge replaces nothing: the registry ends
    with both entries and the old name is still there. *)
Theorem loaded_entry_is_not_replaced :
  let fs := sample_files "/etc/tg.json"
              (ConfigObject (Some "KEY") (Some [("7", "Old")])) in
  let e := updates_env [plain_update 1 7 "Ann"] in
  let loaded := create fs (Some "/etc/tg.json") e tt io0 in
  exists tgn,
    fst (fst loaded) = Ok tgn
    /\ registered_chats tgn = [(KStr "7", "Old")]
    /\ registered_chats (snd (fst (add_recent_chats e tgn (snd loaded))))
       = [(KStr "7", "Old"); (KInt 7, "Ann <no last name> (@<no username>)")].
Proof.
  intros fs e loaded. eexists. split; [reflexivity|]. split; reflexivity.
Qed.

Example str_key_and_int_key_coexist :
  registered_chats
    (snd (fst (add_recent_chats (updates_env [plain_update 1 7 "Ann"])
                 (sample_notifier [(KStr "7", "Old")]) io0)))
  = [(KStr "7", "Old"); (KInt 7, "Ann <no last name> (@<no username>)")].
Proof. reflexivity. Qed.

(** ** Properties of photo retrieval *)

Lemma largest_photo_fold (l : list photo_size) :
  largest_photo l = fold_left photo_step l (-1, -1, None).
Proof. reflexivity. Qed.

(** The loop either keeps what it started with, every width being no larger
    than the starting width, or ends on the first variant of the greatest
    width. *)
Lemma photo_loop_invariant (l : list photo_size) :
  forall (h w : Z) (f : option string),
    (fold_left photo_step l (h, w, f) = (h, w, f)
     /\ Forall (fun q => ps_width q <= w) l)
    \/ (exists p,
          fold_left photo_step l (h, w, f)
          = (ps_height p, ps_width p, Some (ps_file_id p))
          /\ w < ps_width p /\ widest l p /\ first_of_its_width l p).
Proof.
  induction l as [|q l IH]; intros h w f.
  - left. now split.
  - cbn [fold_left].
    change (photo_step (h, w, f) q)
      with (if ps_width q >? w
            then (ps_height q, ps_width q, Some (ps_file_id q))
            else (h, w, f)).
    destruct (ps_width q >? w) eqn:E.
    + apply Z.gtb_lt in E. right.
      destruct (IH (ps_height q) (ps_width q) (Some (ps_file_id q)))
        as [[Hrun Hall]|(p & Hrun & Hlt & [Hin Hall] & Hfirst)].
      * exists q. split; [exact Hrun|]. split; [lia|]. split.
        -- split; [now left|]. constructor; [lia | exact Hall].
        -- unfold first_of_its_width. simpl. now rewrite Z.eqb_refl.
      * exists p. split; [exact Hrun|]. split; [lia|]. split.
        -- split; [now right|]. constructor; [lia | exact Hall].
        -- unfold first_of_its_width in *. simpl.
           destruct (ps_width q =? ps_width p) eqn:Eq; [|exact Hfirst].
           apply Z.eqb_eq in Eq. lia.
    + assert (Hle : ps_width q <= w).
      { destruct (Z.gtb_spec (ps_width q) w); [discriminate | lia]. }
      destruct (IH h w f)
        as [[Hrun Hall]|(p & Hrun & Hlt & [Hin Hall] & Hfirst)].
      * left. split; [exact Hrun|]. now constructor.
      * right. exists p. split; [exact Hrun|]. split; [exact Hlt|]. split.
        -- split; [now right|]. constructor; [lia | exact Hall].
        -- unfold first_of_its_width in *. simpl.
           destruct (ps_width q =? ps_width p) eqn:Eq; [|exact Hfirst].
           apply Z.eqb_eq in Eq. lia.
Qed.

(** On a non-empty list of non-negative widths the loop selects the first
    variant of the greatest width. *)
Lemma largest_photo_first_widest (l : list photo_size) :
  l <> [] ->
  Forall (fun q => 0 <= ps_width q) l ->
  exists p,
    widest l p /\ first_of_its_width l p
    /\ largest_photo l = (ps_height p, ps_width p, Some (ps_file_id p)).
Proof.
  intros Hne Hpos. rewrite largest_photo_fold.
  destruct (photo_loop_invariant l (-1) (-1) None)
    as [[_ Hall]|(p & Hrun & _ & Hw & Hf)].
  - destruct l as [|q l]; [contradiction|].
    inversion Hall; subst. inversion Hpos; subst. lia.
  - exists p. split; [exact Hw|]. split; [exact Hf | exact Hrun].
Qed.

(** Writing a file sends nothing; it adds the file or raises and adds
    nothing. *)
Lemma write_file_run {S : Type} (p content : string) (e : env) (s : S)
  (w : io) :
  exists r w',
    write_file p content e s w = (r, s, w')
    /\ sent w' = sent w
    /\ ((r = Ok tt /\ writable e p = true
         /\ written w' = (written w ++ [(p, content)])%list)
        \/ (r = Raise OSError /\ writable e p = false /\ w' = w)).
Proof.
  unfold write_file. destruct (writable e p); do 2 eexists;
    (split; [reflexivity|]); (split; [reflexivity|]);
    [left | right]; now repeat split.
Qed.

Lemma checked_get_request_sent {S : Type} (url : string)
  (data : option payload) (e : env) (s : S) (w : io) :
  exists r,
    checked_get_request url data e s w
    = (r, s, record_sent w (mk_request GET url data)).
Proof.
  unfold checked_get_request, bind, http, raise, ret, record_sent.
  destruct (net e _ _) as [|res]; [now eexists|].
  destruct (negb (status_code res =? 200)); now eexists.
Qed.

(** C6 as the code has it.  For a message with a non-empty list of variants
    of non-negative width, the first request of [download_photo_from_msg] is
    "getFile" for a variant of the greatest width, the first of that width
    in iteration order; when that request returns a file path, the second
    and last request downloads that file. *)
Theorem download_photo_first_widest :
  forall (e : env) (self : TGNotifier) (w : io) (msg : message)
         (path : string) (l : list photo_size),
    msg_photo msg = Some l ->
    l <> [] ->
    Forall (fun q => 0 <= ps_width q) l ->
    let out := download_photo_from_msg msg path e self w in
    exists p,
      widest l p /\ first_of_its_width l p
      /\ (exists rest,
            sent (snd out)
            = (sent w ++ getFile_request self (Some (ps_file_id p)) :: rest)%list)
      /\ (forall fp,
            decoded (net e (List.length (sent w))
                       (getFile_request self (Some (ps_file_id p))))
            = Some (JFile fp) ->
            sent (snd out)
            = (sent w ++ [getFile_request self (Some (ps_file_id p));
                          download_request self fp])%list).
Proof.
  intros e self w msg path l Hl Hne Hpos out.
  destruct (largest_photo_first_widest l Hne Hpos) as (p & Hw & Hf & Hsel).
  exists p. split; [exact Hw|]. split; [exact Hf|].
  unfold out, download_photo_from_msg. rewrite Hl, Hsel. cbn [snd].
  fold (getFile_request self (Some (ps_file_id p))).
  set (req := getFile_request self (Some (ps_file_id p))).
  destruct (decoded (net e (List.length (sent w)) req)) as [j|] eqn:D.
  - unfold req, getFile_request in D.
    erewrite bind_Ok by (apply get_decoded; exact D).
    fold (getFile_request self (Some (ps_file_id p))). fold req.
    destruct j as [b|fp|].
    + erewrite bind_Raise by reflexivity. cbn [snd sent record_sent].
      split; [now exists []|]. intros fp Hfp. discriminate Hfp.
    + erewrite bind_Ok by reflexivity.
      erewrite bind_Ok by reflexivity.
      erewrite bind_Ok by reflexivity.
      destruct (checked_get_request_sent
                  ("https://api.telegram.org/file/bot" ++ api_key self
                   ++ "/" ++ fp) None e self (record_sent w req))
        as [r Hr].
      fold (download_request self fp) in Hr.
      assert (Hs : sent (record_sent (record_sent w req)
                           (download_request self fp))
                   = (sent w ++ [req; download_request self fp])%list)
        by (simpl; now rewrite <- app_assoc).
      destruct r as [res|x].
      * erewrite bind_Ok by exact Hr.
        match goal with
        | |- context [bind (write_file ?q ?c) _ e self ?w0] =>
            destruct (write_file_run q c e self w0) as (r & w2 & Hwr & Hs2 & _)
        end.
        rewrite Hs in Hs2.
        destruct r as [[]|x];
          [erewrite bind_Ok by exact Hwr | erewrite bind_Raise by exact Hwr];
          cbn [snd ret]; (split;
            [exists [download_request self fp]; exact Hs2
            |intros fp' Hfp; injection Hfp as <-; exact Hs2]).
      * erewrite bind_Raise by exact Hr. cbn [snd].
        split.
        -- exists [download_request self fp]. exact Hs.
        -- intros fp' Hfp. injection Hfp as <-. exact Hs.
    + erewrite bind_Raise by reflexivity. cbn [snd sent record_sent].
      split; [now exists []|]. intros fp Hfp. discriminate Hfp.
  - unfold req, getFile_request in D.
    destruct (get_not_decoded _ _ _ _ _ D) as [x Hx].
    erewrite bind_Raise by exact Hx. cbn [snd sent record_sent].
    fold (getFile_request self (Some (ps_file_id p))). fold req.
    split; [now exists []|]. intros fp Hfp. discriminate Hfp.
Qed.

(** Witness for C6: of two variants of width 100 the first one, "a", is
    asked for and downloaded. *)
Lemma download_photo_first_widest_witness :
  sent (snd (download_photo_from_msg (photo_message two_equal_sizes) "/tmp/p"
               photo_env (sample_notifier []) io0))
  = [mk_request GET "https://api.telegram.org/botKEY/getFile"
       (Some (GetFile (Some "a")));
     mk_request GET "https://api.telegram.org/file/botKEY/photos/file_1.jpg"
       None].
Proof.
  destruct (download_photo_first_widest photo_env (sample_notifier []) io0
              (photo_message two_equal_sizes) "/tmp/p" two_equal_sizes
              eq_refl)
    as (p & [Hin _] & Hfirst & _ & Hdl).
  - discriminate.
  - repeat constructor; simpl; lia.
  - destruct Hin as [<-|[<-|[]]].
    + apply (Hdl "photos/file_1.jpg"). reflexivity.
    + discriminate Hfirst.
Defined.

(** C6 as stated fails: of two variants of equal greatest width the code
    asks for the first, so no variant that is the last of the greatest width
    is the one requested. *)
Lemma download_photo_not_last_widest :
  let self := sample_notifier [] in
  let out := download_photo_from_msg (photo_message two_equal_sizes) "/tmp/p"
               photo_env self io0 in
  ~ exists p,
      widest two_equal_sizes p /\ last_of_its_width two_equal_sizes p
      /\ In (getFile_request self (Some (ps_file_id p))) (sent (snd out)).
Proof.
  intros self out (p & [Hin _] & Hlast & Hreq).
  destruct Hin as [<-|[<-|[]]].
  - discriminate Hlast.
  - vm_compute in Hreq. destruct Hreq as [H|[H|[]]]; discriminate H.
Qed.

(** ** Scenarios *)

(** Both config files exist: the colocated one is used and a warning logged. *)
Example both_configs_exist :
  let e := sample_env ["/opt/tgnotipy/config.json";
                       "/home/u/.config/tgnotipy/config.json"] true always_ok in
  get_config_file_path None e tt io0
  = (Ok "/opt/tgnotipy/config.json", tt,
     mk_io []
       [(WARNING,
         two_configs_warning "/home/u/.config/tgnotipy/config.json"
           "/opt/tgnotipy/config.json")]
       ["/opt/tgnotipy/config.json"; "/home/u/.config/tgnotipy/config.json"]
       [] ["/home/u/.config/tgnotipy"]).
Proof. reflexivity. Qed.

(** No config file anywhere: the standard location when [xdg] is there, the
    colocated path otherwise. *)
Example no_config_exists :
  fst (fst (get_config_file_path None (sample_env [] true always_ok) tt io0))
  = Ok "/home/u/.config/tgnotipy/config.json"
  /\ fst (fst (get_config_file_path None (sample_env [] false always_ok) tt io0))
     = Ok "/opt/tgnotipy/config.json".
Proof. split; reflexivity. Qed.

(** Alice is delivered, Bob's delivery answers 400: the error line names Bob
    and carries the hint of [post]. *)
Example bob_fails_with_400 :
  let e := sample_env [] false
             (fun k _ => match k with
                         | O => json_response 200 JOther
                         | _ => json_response 400 JOther
                         end) in
  logged (snd (broadcast "hi" false false e (sample_notifier alice_bob) io0))
  = [(DEBUG, "Sending message to 'Alice'");
     (DEBUG, "Sending message to 'Bob'");
     (ERROR, "Failed to send message to Bob!" ++ nl
             ++ "Reason: Request failed with status code 400 (illformed message?)");
     (INFO, "Done sending messages, 1 successful, 1 failed.")].
Proof. reflexivity. Qed.

(** A body that is not JSON raises past the [except TGException] of the
    loop: the delivery to Bob is never attempted. *)
Example undecodable_body_aborts :
  let e := sample_env [] false
             (fun _ _ => NetResponse (mk_response 200 None "oops")) in
  let out := broadcast "hi" false false e (sample_notifier alice_bob) io0 in
  fst (fst out) = Raise JSONDecodeError /\ List.length (sent (snd out)) = 1%nat.
Proof. split; reflexivity. Qed.


(** ** Further properties of the update cursor *)

(** X1.  When the first "get updates" request fails or returns no batch,
    [get_updates] raises, sends no acknowledging request and leaves the
    notifier, its cursor included, as it was. *)
Theorem get_updates_first_request_fails :
  forall (e : env) (self : TGNotifier) (w : io) (limit timeout : Z)
         (au : list string),
    first_batch e self w limit timeout = None ->
    let out := get_updates limit timeout au e self w in
    (exists x, fst (fst out) = Raise x)
    /\ snd (fst out) = self
    /\ sent (snd out) = (sent w ++ [updates_request self limit timeout])%list.
Proof.
  intros e self w limit timeout au Hb out.
  destruct (get_updates_no_batch e self w limit timeout au Hb) as [x Hrun].
  unfold out. rewrite Hrun. cbn [fst snd]. split; [now exists x|].
  split; reflexivity.
Qed.

(** Witness for X1: the service answers 500. *)
Lemma get_updates_first_request_fails_witness :
  let out := get_updates 100 0 ["message"] (status_env 500)
               (sample_notifier alice_bob) io0 in
  (exists x, fst (fst out) = Raise x)
  /\ snd (fst out) = sample_notifier alice_bob
  /\ sent (snd out)
     = ([] ++ [updates_request (sample_notifier alice_bob) 100 0])%list.
Proof.
  apply (get_updates_first_request_fails (status_env 500)
           (sample_notifier alice_bob) io0 100 0 ["message"]).
  reflexivity.
Defined.

(** X2.  When the first request returns a batch and the acknowledging
    request fails, [get_updates] raises and the batch does not reach the
    caller, yet the cursor has already moved past the batch. *)
Theorem get_updates_acknowledge_fails :
  forall (e : env) (self : TGNotifier) (w : io) (limit timeout : Z)
         (au : list string) (b : list update),
    first_batch e self w limit timeout = Some b ->
    let self' := with_cursor self (max_update_id (last_update_id self) b) in
    decoded (net e (S (List.length (sent w)))
               (updates_request self' limit timeout)) = None ->
    let out := get_updates limit timeout au e self w in
    (exists x, fst (fst out) = Raise x)
    /\ snd (fst out) = self'
    /\ sent (snd out)
       = (sent w ++ [updates_request self limit timeout;
                     updates_request self' limit timeout])%list.
Proof.
  intros e self w limit timeout au b Hb self' Hack out.
  destruct (get_updates_batch e self w limit timeout au b Hb)
    as (r & Hrun & _ & Hfail).
  destruct (Hfail Hack) as [x ->].
  unfold out. rewrite Hrun. cbn [fst snd]. split; [now exists x|].
  split; [reflexivity|]. simpl. now rewrite <- app_assoc.
Qed.

(** Witness for X2: a batch with ids 7 and 5, then a 502 answer. *)
Lemma get_updates_acknowledge_fails_witness :
  let b := [plain_update 7 1 "A"; plain_update 5 2 "B"] in
  let e := sample_env [] false
             (fun k _ => match k with
                         | O => json_response 200 (JUpdates b)
                         | _ => json_response 502 JOther
                         end) in
  let out := get_updates 100 0 ["message"] e (sample_notifier []) io0 in
  (exists x, fst (fst out) = Raise x)
  /\ last_update_id (snd (fst out)) = 7.
Proof.
  intros b e out.
  destruct (get_updates_acknowledge_fails e (sample_notifier []) io0 100 0
              ["message"] b eq_refl eq_refl) as (Hx & Hs & _).
  split; [exact Hx|]. fold out in Hs. now rewrite Hs.
Defined.

(** ** Further properties of the chat registry *)

Lemma dict_set_keys_in (d : dict) (k k' : chat_key) (v : string) :
  In k' (dict_keys (dict_set d k v)) <-> k' = k \/ In k' (dict_keys d).
Proof.
  destruct (in_dec key_eq_dec k (dict_keys d)) as [Hk|Hk].
  - rewrite dict_set_present by exact Hk. split; [now right|].
    intros [->|H]; assumption.
  - rewrite dict_set_absent by exact Hk. unfold dict_keys.
    rewrite map_app, in_app_iff. simpl. split.
    + intros [H|[H|[]]]; [now right | now left].
    + intros [->|H]; [right; now left | now left].
Qed.

(** An update appends the keys it brings and moves none. *)
Lemma dict_update_keys_extend (other : dict) :
  forall d,
  exists t,
    dict_keys (dict_update d other) = (dict_keys d ++ t)%list
    /\ Forall (fun k => In k (dict_keys other) /\ ~ In k (dict_keys d)) t.
Proof.
  induction other as [|[k v] other IH]; intros d.
  - exists []. simpl. now rewrite app_nil_r.
  - rewrite dict_update_cons.
    destruct (IH (dict_set d k v)) as (t & Hkeys & Ht).
    destruct (in_dec key_eq_dec k (dict_keys d)) as [Hk|Hk].
    + rewrite dict_set_present in Hkeys by exact Hk.
      exists t. split; [exact Hkeys|].
      rewrite Forall_forall in *. intros k' Hk'.
      destruct (Ht k' Hk') as [Hin Hnot]. split; [now right|].
      now rewrite dict_set_present in Hnot.
    + assert (Hk2 : dict_keys (dict_set d k v) = (dict_keys d ++ [k])%list)
        by (rewrite dict_set_absent by exact Hk; unfold dict_keys;
            now rewrite map_app).
      rewrite Hk2, <- app_assoc in Hkeys.
      exists (k :: t). split; [exact Hkeys|].
      constructor; [split; [now left | exact Hk]|].
      rewrite Forall_forall in *. intros k' Hk'.
      destruct (Ht k' Hk') as [Hin Hnot]. split; [now right|].
      intros Hd. apply Hnot. now apply dict_set_keeps.
Qed.

(** The extraction loop never touches the notifier or the effects. *)
Lemma recent_chats_loop_pure (e : env) (self : TGNotifier) (w : io) :
  forall (updates : list update) (acc : dict),
  exists r, recent_chats_loop updates acc e self w = (r, self, w).
Proof.
  induction updates as [|u updates IH]; intros acc; [now eexists|].
  cbn [recent_chats_loop]. destruct (upd_message u); [apply IH | now eexists].
Qed.

(** An update without a message stops the extraction with [KeyError]. *)
Lemma recent_chats_loop_missing (e : env) (self : TGNotifier) (w : io) :
  forall (updates : list update) (acc : dict),
    In None (map upd_message updates) ->
    recent_chats_loop updates acc e self w
    = (Raise (KeyError "message"), self, w).
Proof.
  induction updates as [|u updates IH]; intros acc H; [contradiction|].
  cbn [recent_chats_loop]. simpl in H.
  destruct (upd_message u) as [m|]; [|reflexivity].
  apply IH. destruct H as [H|H]; [discriminate | exact H].
Qed.

(** The extraction only ever inserts [int] keys, each once. *)
Lemma recent_chats_loop_int_keys (e : env) (self : TGNotifier) (w : io) :
  forall (updates : list update) (acc new : dict),
    recent_chats_loop updates acc e self w = (Ok new, self, w) ->
    Forall is_int_key (dict_keys acc) ->
    NoDup (dict_keys acc) ->
    Forall is_int_key (dict_keys new) /\ NoDup (dict_keys new).
Proof.
  induction updates as [|u updates IH]; intros acc new Hrun Hint Hnd.
  - injection Hrun as <-. now split.
  - cbn [recent_chats_loop] in Hrun.
    destruct (upd_message u) as [m|]; [|discriminate].
    apply (IH _ _ Hrun); [|now apply dict_set_NoDup].
    rewrite Forall_forall in *. intros k Hk.
    apply dict_set_keys_in in Hk. destruct Hk as [->|Hk];
      [now eexists | now apply Hint].
Qed.

(** Every run of [add_recent_chats]: some mapping was merged (an empty one
    when the run raised), the cursor is the one [get_updates] left, and the
    rest of the notifier is untouched. *)
Lemma add_recent_chats_run (e : env) (self : TGNotifier) (w : io) :
  exists r c merged w',
    add_recent_chats e self w
    = (r,
       {| config_file_path := config_file_path self;
          api_key := api_key self;
          bot_url := bot_url self;
          last_update_id := c;
          registered_chats := dict_update (registered_chats self) merged |},
       w')
    /\ last_update_id self <= c
    /\ (forall new, r = Ok new -> merged = new)
    /\ NoDup (dict_keys merged)
    /\ Forall is_int_key (dict_keys merged)
    /\ written w' = written w
    /\ exists reqs,
         sent w' = (sent w ++ reqs)%list
         /\ Forall (fun q => req_verb q = GET) reqs.
Proof.
  unfold add_recent_chats, get_recent_chats.
  destruct (first_batch e self w 100 0) as [b|] eqn:Hb.
  - destruct (get_updates_batch e self w 100 0 ["message"] b Hb)
      as (r & Hrun & Hok & Hfail).
    pose proof (max_update_id_ge b (last_update_id self)) as Hge.
    set (self1 := with_cursor self (max_update_id (last_update_id self) b)) in *.
    assert (Hreqs : exists reqs,
               sent (record_sent (record_sent w (updates_request self 100 0))
                       (updates_request self1 100 0))
               = (sent w ++ reqs)%list
               /\ Forall (fun q => req_verb q = GET) reqs).
    { exists [updates_request self 100 0; updates_request self1 100 0].
      split; [simpl; now rewrite <- app_assoc | now repeat constructor]. }
    destruct r as [b'|x].
    + destruct (recent_chats_loop_pure e self1
                  (record_sent (record_sent w (updates_request self 100 0))
                     (updates_request self1 100 0))
                  b' []) as [r Hloop].
      destruct r as [new|x].
      * erewrite bind_Ok by (erewrite bind_Ok by exact Hrun; exact Hloop).
        erewrite bind_Ok by reflexivity.
        destruct (recent_chats_loop_int_keys _ _ _ _ _ _ Hloop)
          as [Hint Hnd]; [constructor | constructor |].
        exists (Ok new), (max_update_id (last_update_id self) b), new.
        eexists. split; [reflexivity|]. split; [exact Hge|].
        split; [now intros new' [= ->]|].
        split; [exact Hnd|]. split; [exact Hint|].
        split; [reflexivity | exact Hreqs].
      * erewrite bind_Raise by (erewrite bind_Ok by exact Hrun; exact Hloop).
        exists (Raise x), (max_update_id (last_update_id self) b), [].
        eexists. split; [reflexivity|]. split; [exact Hge|].
        split; [discriminate|]. split; [constructor|]. split; [constructor|].
        split; [reflexivity | exact Hreqs].
    + erewrite bind_Raise by (erewrite bind_Raise by exact Hrun; reflexivity).
      exists (Raise x), (max_update_id (last_update_id self) b), [].
      eexists. split; [reflexivity|]. split; [exact Hge|].
      split; [discriminate|]. split; [constructor|]. split; [constructor|].
      split; [reflexivity | exact Hreqs].
  - destruct (get_updates_no_batch e self w 100 0 ["message"] Hb) as [x Hrun].
    erewrite bind_Raise by (erewrite bind_Raise by exact Hrun; reflexivity).
    exists (Raise x), (last_update_id self), []. eexists.
    split; [destruct self; reflexivity|]. split; [lia|].
    split; [discriminate|]. split; [constructor|]. split; [constructor|].
    split; [reflexivity|].
    exists [updates_request self 100 0]. split; [reflexivity|].
    now repeat constructor.
Qed.

(** X3.  Whatever the network answers, [add_recent_chats] keeps the
    credential, the bot URL and the config path, never lowers the cursor,
    and keeps every registered chat at its place: the keys afterwards are
    the old keys in their old order followed by keys that were not there. *)
Theorem add_recent_chats_keeps_entries :
  forall (e : env) (self : TGNotifier) (w : io),
    let self' := snd (fst (add_recent_chats e self w)) in
    api_key self' = api_key self
    /\ bot_url self' = bot_url self
    /\ config_file_path self' = config_file_path self
    /\ last_update_id self <= last_update_id self'
    /\ exists added,
         dict_keys (registered_chats self')
         = (dict_keys (registered_chats self) ++ added)%list
         /\ Forall (fun k => ~ In k (dict_keys (registered_chats self))) added.
Proof.
  intros e self w self'.
  destruct (add_recent_chats_run e self w)
    as (r & c & merged & w' & Hrun & Hc & _).
  unfold self'. rewrite Hrun. cbn [fst snd api_key bot_url config_file_path
                                     last_update_id registered_chats].
  repeat split; try exact Hc.
  destruct (dict_update_keys_extend merged (registered_chats self))
    as (t & Hkeys & Ht).
  exists t. split; [exact Hkeys|].
  rewrite Forall_forall in *. intros k Hk. now destruct (Ht k Hk).
Qed.

(** X4.  When an update of the pulled batch carries no message,
    [add_recent_chats] raises [KeyError] and the registry is unchanged, but
    the batch has been acknowledged and the cursor has moved past it. *)
Theorem add_recent_chats_update_without_message :
  forall (e : env) (self : TGNotifier) (w : io) (b : list update)
         (j : json_value),
    first_batch e self w 100 0 = Some b ->
    let self1 := with_cursor self (max_update_id (last_update_id self) b) in
    decoded (net e (S (List.length (sent w))) (updates_request self1 100 0))
    = Some j ->
    In None (map upd_message b) ->
    let out := add_recent_chats e self w in
    fst (fst out) = Raise (KeyError "message")
    /\ snd (fst out) = self1
    /\ sent (snd out)
       = (sent w ++ [updates_request self 100 0;
                     updates_request self1 100 0])%list.
Proof.
  intros e self w b j Hb self1 Hack Hnone out.
  destruct (get_updates_batch e self w 100 0 ["message"] b Hb)
    as (r & Hrun & Hok & _).
  rewrite (Hok j Hack) in Hrun.
  unfold out, add_recent_chats, get_recent_chats.
  erewrite bind_Raise
    by (erewrite bind_Ok by exact Hrun;
        apply recent_chats_loop_missing; exact Hnone).
  cbn [fst snd]. split; [reflexivity|]. split; [reflexivity|].
  simpl. now rewrite <- app_assoc.
Qed.

(** Witness for X4: the second update of the batch is not a message. *)
Lemma add_recent_chats_update_without_message_witness :
  let b := [plain_update 3 7 "Ann"; mk_update 4 None] in
  let out := add_recent_chats (updates_env b)
               (sample_notifier [(KInt 8, "Bob")]) io0 in
  fst (fst out) = Raise (KeyError "message")
  /\ registered_chats (snd (fst out)) = [(KInt 8, "Bob")]
  /\ last_update_id (snd (fst out)) = 4.
Proof.
  intros b out.
  destruct (add_recent_chats_update_without_message (updates_env b)
              (sample_notifier [(KInt 8, "Bob")]) io0 b (JUpdates [])
              eq_refl eq_refl)
    as (Hr & Hs & _).
  - simpl. right. now left.
  - fold out in Hr, Hs. split; [exact Hr|]. now rewrite Hs.
Defined.

Lemma recent_chats_loop_keys (e : env) (self : TGNotifier) (w : io) :
  forall (updates : list update) (msgs : list message) (acc new : dict),
    map upd_message updates = map Some msgs ->
    recent_chats_loop updates acc e self w = (Ok new, self, w) ->
    forall k,
      In k (dict_keys new)
      <-> In k (dict_keys acc)
          \/ exists m, In m msgs /\ k = KInt (chat_id (msg_chat m)).
Proof.
  induction updates as [|u updates IH]; intros msgs acc new Hm Hrun k.
  - destruct msgs; [|discriminate]. injection Hrun as <-.
    split; [now left|]. intros [H|(m & [] & _)]. exact H.
  - destruct msgs as [|m msgs]; [discriminate|].
    simpl in Hm. injection Hm as Hu Hrest.
    cbn [recent_chats_loop] in Hrun. rewrite Hu in Hrun.
    rewrite (IH msgs _ new Hrest Hrun k), dict_set_keys_in. split.
    + intros [[->|H]|(m' & Hin & ->)].
      * right. exists m. split; [now left | reflexivity].
      * now left.
      * right. exists m'. split; [now right | reflexivity].
    + intros [H|(m' & [<-|Hin] & ->)].
      * left. now right.
      * left. now left.
      * right. now exists m'.
Qed.

(** X5.  The mapping [add_recent_chats] returns has one entry per chat of
    the batch: its keys are exactly the [int] chat ids of the messages, each
    once. *)
Theorem add_recent_chats_returns_batch_chats :
  forall (e : env) (self : TGNotifier) (w : io) (b : list update)
         (msgs : list message) (j : json_value),
    first_batch e self w 100 0 = Some b ->
    map upd_message b = map Some msgs ->
    decoded (net e (S (List.length (sent w)))
               (updates_request
                  (with_cursor self (max_update_id (last_update_id self) b))
                  100 0)) = Some j ->
    exists new,
      fst (fst (add_recent_chats e self w)) = Ok new
      /\ NoDup (dict_keys new)
      /\ (forall k,
            In k (dict_keys new)
            <-> exists m, In m msgs /\ k = KInt (chat_id (msg_chat m))).
Proof.
  intros e self w b msgs j Hb Hm Hack.
  destruct (get_updates_batch e self w 100 0 ["message"] b Hb)
    as (r & Hrun & Hok & _).
  rewrite (Hok j Hack) in Hrun.
  match type of Hrun with _ = (_, ?s0, ?w0) =>
    destruct (recent_chats_loop_run e s0 w0 b msgs [] Hm)
      as (new & Hloop & Hnd & _);
    pose proof (recent_chats_loop_keys e s0 w0 b msgs [] new Hm Hloop) as Hkeys
  end.
  exists new. split.
  - unfold add_recent_chats, get_recent_chats.
    erewrite bind_Ok by (erewrite bind_Ok by exact Hrun; exact Hloop).
    erewrite bind_Ok by reflexivity. reflexivity.
  - split; [apply Hnd; constructor|].
    intros k. rewrite Hkeys. simpl. tauto.
Qed.

(** Witness for X5: chat 7 writes twice, chat 9 once. *)
Lemma add_recent_chats_returns_batch_chats_witness :
  let b := [plain_update 1 7 "Ann"; plain_update 2 9 "Cy";
            plain_update 3 7 "Anna"] in
  exists new,
    fst (fst (add_recent_chats (updates_env b) (sample_notifier []) io0))
    = Ok new
    /\ NoDup (dict_keys new)
    /\ In (KInt 9) (dict_keys new).
Proof.
  intros b.
  destruct (add_recent_chats_returns_batch_chats (updates_env b)
              (sample_notifier []) io0 b
              (map (fun u => match upd_message u with
                             | Some m => m
                             | None => mk_message (mk_chat 0 None None None) None
                             end) b)
              (JUpdates []) eq_refl eq_refl eq_refl)
    as (new & Hret & Hnd & Hkeys).
  exists new. split; [exact Hret|]. split; [exact Hnd|].
  apply Hkeys. eexists. split; [right; left; reflexivity | reflexivity].
Defined.

(** ** Further properties of the broadcast *)

Lemma send_exact (with_host : bool) (chat_id : chat_key) (msg : string)
  (notify : bool) (e : env) (self : TGNotifier) (w : io) :
  let req := delivery_request e self msg with_host notify chat_id in
  (if with_host then send_host_msg chat_id msg notify
   else send_msg chat_id msg notify) e self w
  = (delivery_result (net e (List.length (sent w)) req), self,
     record_sent w req).
Proof.
  intros req. subst req.
  unfold delivery_request, delivery_text, delivery_result,
    post_failure_reason, decoded, api_request, record_sent.
  destruct with_host;
    unfold send_host_msg, send_msg, post, response_json, bind, ask, get_self,
      http, raise, ret;
    (destruct (net e _ _) as [|res]; [reflexivity|]);
    (destruct (status_code res =? 200); simpl; [|reflexivity]);
    destruct (res_json res); reflexivity.
Qed.

Lemma bind_eq {S A B : Type} (m : M S A) (f : A -> M S B) (e : env) (s : S)
  (w : io) :
  bind m f e s w
  = match m e s w with
    | (Ok a, s', w') => f a e s' w'
    | (Raise x, s', w') => (Raise x, s', w')
    end.
Proof. reflexivity. Qed.

(** The loop over two stretches of recipients is the loop over the first
    followed by the loop over the second. *)
Lemma broadcast_loop_app (msg : string) (with_host notify : bool) (e : env) :
  forall (a b : dict) (ns nf : Z) (self : TGNotifier) (w : io),
    broadcast_loop (a ++ b)%list msg with_host notify ns nf e self w
    = match broadcast_loop a msg with_host notify ns nf e self w with
      | (Ok c, self', w') =>
          broadcast_loop b msg with_host notify (fst c) (snd c) e self' w'
      | (Raise x, self', w') => (Raise x, self', w')
      end.
Proof.
  induction a as [|[chat_id name] a IH]; intros b ns nf self w;
    [reflexivity|].
  cbn [app broadcast_loop]. rewrite !bind_eq.
  destruct (log DEBUG _ e self w) as [[[[]|x] s0] w0]; [|reflexivity].
  rewrite !bind_eq.
  destruct (try_except_TG _ _ _ e s0 w0) as [[[c|x] s1] w1];
    [apply IH | reflexivity].
Qed.

(** The effects of the loop when every delivery is settled. *)
Lemma broadcast_loop_effects (msg : string) (with_host notify : bool) (e : env)
  (self : TGNotifier) :
  forall (items : dict) (ns nf : Z) (w : io),
    let reqs := map (delivery_request e self msg with_host notify)
                  (dict_keys items) in
    let rs := answers e (List.length (sent w)) reqs in
    forallb settled rs = true ->
    exists c,
      broadcast_loop items msg with_host notify ns nf e self w
      = (Ok c, self,
         mk_io (sent w ++ reqs)
           (logged w ++ delivery_logs (map snd items) rs)
           (probed w) (written w) (ensured w)).
Proof.
  induction items as [|[chat_id name] rest IH]; intros ns nf w reqs rs Hall.
  - exists (ns, nf). subst rs reqs. cbn. rewrite !app_nil_r.
    now destruct w.
  - subst rs reqs. cbn [dict_keys map fst snd answers delivery_logs] in *.
    set (req := delivery_request e self msg with_host notify chat_id) in *.
    cbn [forallb] in Hall. apply andb_prop in Hall. destruct Hall as [Hr Hrest].
    cbn [broadcast_loop].
    erewrite bind_Ok by reflexivity.
    match goal with
    | |- context [bind _ _ e self ?w0] => set (w1 := w0)
    end.
    pose proof (send_exact with_host chat_id msg notify e self w1) as Hsend.
    cbv zeta in Hsend. fold req in Hsend.
    change (List.length (sent w1)) with (List.length (sent w)) in Hsend.
    set (ans := net e (List.length (sent w)) req) in *.
    unfold delivery_log. unfold delivery_result in Hsend.
    unfold settled, request_fails, delivered in Hr.
    destruct (post_failure_reason ans) as [reason|] eqn:Hreason.
    + erewrite bind_Ok
        by (erewrite try_except_TG_caught by exact Hsend;
            erewrite bind_Ok by reflexivity; reflexivity).
      match goal with
      | |- context [broadcast_loop _ _ _ _ _ _ e self ?w0] => set (w2 := w0)
      end.
      assert (L2 : List.length (sent w2) = S (List.length (sent w)))
        by apply (sent_record_sent w1 req).
      specialize (IH (fst (ns, nf + 1)) (snd (ns, nf + 1)) w2).
      cbv zeta in IH. rewrite L2 in IH.
      destruct (IH Hrest) as (c & Hc). exists c. rewrite Hc.
      f_equal. subst w2 w1. unfold record_sent. cbn [sent logged probed written].
      f_equal; rewrite <- !app_assoc; reflexivity.
    + assert (Hd : exists j, decoded ans = Some j).
      { destruct ans as [|res]; [discriminate|].
        simpl in Hreason, Hr |- *.
        destruct (status_code res =? 200); [|discriminate].
        simpl in Hr. destruct (res_json res) as [j|]; [now exists j|].
        discriminate. }
      destruct Hd as [j Hd]. rewrite Hd in Hsend.
      erewrite bind_Ok
        by (erewrite try_except_TG_Ok by exact Hsend; reflexivity).
      assert (L2 : List.length (sent (record_sent w1 req))
                   = S (List.length (sent w)))
        by apply (sent_record_sent w1 req).
      specialize (IH (fst (ns + 1, nf)) (snd (ns + 1, nf)) (record_sent w1 req)).
      cbv zeta in IH. rewrite L2 in IH.
      destruct (IH Hrest) as (c & Hc). exists c. rewrite Hc.
      f_equal. subst w1. unfold record_sent. cbn [sent logged probed written].
      f_equal; rewrite <- !app_assoc; reflexivity.
Qed.

(** X6.  When every delivery either raises [TGException] or goes through,
    the effects of [broadcast] are exactly: one request per registered chat
    in stored order; per chat a debug line, followed by an error line naming
    the chat and the reason when its delivery raised; one closing summary
    line; no file probed or written. *)
Theorem broadcast_effects :
  forall (e : env) (self : TGNotifier) (w : io) (msg : string)
         (with_host notify : bool),
    let items := registered_chats self in
    let reqs := map (delivery_request e self msg with_host notify)
                  (dict_keys items) in
    let rs := answers e (List.length (sent w)) reqs in
    let N := Z.of_nat (List.length items) in
    let F := count request_fails rs in
    forallb settled rs = true ->
    snd (broadcast msg with_host notify e self w)
    = mk_io (sent w ++ reqs)
        (logged w ++ delivery_logs (map snd items) rs
         ++ [(INFO, done_sending (N - F) F)])
        (probed w) (written w) (ensured w).
Proof.
  intros e self w msg with_host notify items reqs rs N F Hall.
  destruct (broadcast_loop_effects msg with_host notify e self items 0 0 w Hall)
    as (c & Hc).
  destruct (broadcast_loop_settled msg with_host notify e self items 0 0 w Hall)
    as (w' & Hloop & _).
  fold reqs in Hc, Hloop. fold rs in Hc, Hloop.
  rewrite Hc in Hloop. injection Hloop as Hcount _.
  assert (HN : count delivered rs = N - F).
  { rewrite (count_settled rs Hall). unfold N, F. f_equal.
    unfold rs, reqs, dict_keys. now rewrite length_answers, !length_map. }
  cbn [Z.add] in Hcount. rewrite HN in Hcount. fold F in Hcount.
  unfold broadcast.
  erewrite bind_Ok by reflexivity.
  erewrite bind_Ok by exact Hc.
  erewrite bind_Ok by reflexivity.
  rewrite Hcount. cbn [fst snd ret sent logged probed written].
  now rewrite <- app_assoc.
Qed.

(** Witness for X6: Alice is delivered, Bob's delivery answers 400. *)
Lemma broadcast_effects_witness :
  let e := sample_env [] false
             (fun k _ => match k with
                         | O => json_response 200 JOther
                         | _ => json_response 400 JOther
                         end) in
  logged (snd (broadcast "hi" false false e (sample_notifier alice_bob) io0))
  = [(DEBUG, "Sending message to 'Alice'");
     (DEBUG, "Sending message to 'Bob'");
     (ERROR, "Failed to send message to Bob!" ++ nl
             ++ "Reason: Request failed with status code 400 (illformed message?)");
     (INFO, "Done sending messages, 1 successful, 1 failed.")].
Proof.
  intros e.
  rewrite (broadcast_effects e (sample_notifier alice_bob) io0 "hi" false false
             eq_refl).
  reflexivity.
Defined.

(** X7.  A delivery answered with status 200 and a body that is not JSON
    raises [JSONDecodeError] past the handler of the loop: [broadcast]
    raises it, the chats registered after that one are never attempted, and
    no summary line is logged. *)
Theorem broadcast_stops_at_undecodable :
  forall (e : env) (self : TGNotifier) (w : io) (msg : string)
         (with_host notify : bool) (done rest : dict) (chat_id : chat_key)
         (name : string) (res : http_response),
    registered_chats self = (done ++ (chat_id, name) :: rest)%list ->
    let reqs := map (delivery_request e self msg with_host notify)
                  (dict_keys done) in
    let rs := answers e (List.length (sent w)) reqs in
    let req := delivery_request e self msg with_host notify chat_id in
    forallb settled rs = true ->
    net e (List.length (sent w) + List.length done) req = NetResponse res ->
    status_code res = 200 ->
    res_json res = None ->
    broadcast msg with_host notify e self w
    = (Raise JSONDecodeError, self,
       mk_io (sent w ++ reqs ++ [req])
         (logged w ++ delivery_logs (map snd done) rs
          ++ [(DEBUG, "Sending message to '" ++ name ++ "'")])
         (probed w) (written w) (ensured w)).
Proof.
  intros e self w msg with_host notify done rest chat_id name res Hreg
    reqs rs req Hall Hnet Hst Hjson.
  destruct (broadcast_loop_effects msg with_host notify e self done 0 0 w Hall)
    as (c & Hc).
  fold reqs in Hc. fold rs in Hc.
  unfold broadcast.
  erewrite bind_Ok by reflexivity.
  rewrite Hreg.
  erewrite bind_Raise; [reflexivity|].
  rewrite broadcast_loop_app, Hc.
  cbn [broadcast_loop].
  erewrite bind_Ok by reflexivity.
  match goal with
  | |- context [bind _ _ e self ?w0] => set (w1 := w0)
  end.
  pose proof (send_exact with_host chat_id msg notify e self w1) as Hsend.
  cbv zeta in Hsend. fold req in Hsend.
  assert (L : List.length (sent w1)
              = (List.length (sent w) + List.length done)%nat).
  { subst w1. cbn [sent]. unfold reqs, dict_keys.
    now rewrite length_app, !length_map. }
  rewrite L, Hnet in Hsend.
  unfold delivery_result, post_failure_reason, decoded in Hsend.
  rewrite Hst, Hjson in Hsend. simpl in Hsend.
  rewrite (bind_try_other _ Hsend) by (intros; discriminate).
  subst w1. unfold record_sent. cbn [sent logged probed written].
  now rewrite <- !app_assoc.
Qed.

(** Witness for X7: the answer to Alice's delivery is not JSON; Bob is
    never attempted. *)
Lemma broadcast_stops_at_undecodable_witness :
  let e := sample_env [] false
             (fun _ _ => NetResponse (mk_response 200 None "oops")) in
  let out := broadcast "hi" false false e (sample_notifier alice_bob) io0 in
  fst (fst out) = Raise JSONDecodeError
  /\ List.length (sent (snd out)) = 1%nat.
Proof.
  intros e out. unfold out.
  rewrite (broadcast_stops_at_undecodable e (sample_notifier alice_bob) io0
             "hi" false false [] [(KStr "2", "Bob")] (KStr "1") "Alice"
             (mk_response 200 None "oops") eq_refl eq_refl eq_refl eq_refl
             eq_refl).
  split; reflexivity.
Defined.

(** The loop probes and writes no file. *)
Lemma broadcast_loop_quiet (msg : string) (with_host notify : bool) (e : env)
  (self : TGNotifier) :
  forall (items : dict) (ns nf : Z) (w : io),
    let out := broadcast_loop items msg with_host notify ns nf e self w in
    probed (snd out) = probed w /\ written (snd out) = written w.
Proof.
  induction items as [|[chat_id name] rest IH]; intros ns nf w out;
    [now split|].
  subst out. cbn [broadcast_loop]. rewrite !bind_eq. cbn [log].
  rewrite !bind_eq. unfold try_except_TG.
  rewrite send_exact.
  assert (Hstep : forall a b w0,
             probed w0 = probed w -> written w0 = written w ->
             probed (snd (broadcast_loop rest msg with_host notify a b e self w0))
             = probed w
             /\ written (snd (broadcast_loop rest msg with_host notify a b e
                                self w0)) = written w).
  { intros a b w0 Hp0 Hw0. destruct (IH a b w0) as [Hp Hw].
    split; [now rewrite Hp | now rewrite Hw]. }
  destruct (delivery_result _) as [[]|x].
  - cbn [ret]. now apply Hstep.
  - destruct x; try (now split).
    rewrite !bind_eq. cbn [log ret]. now apply Hstep.
Qed.

(** X8.  Whatever the network answers, [broadcast] probes and writes no
    file, and the requests it sends are "sendMessage" POSTs in markdown to
    the registered chats in stored order, one per chat, starting with the
    first chat and without gaps. *)
Theorem broadcast_only_sends_messages :
  forall (e : env) (self : TGNotifier) (w : io) (msg : string)
         (with_host notify : bool),
    let out := broadcast msg with_host notify e self w in
    probed (snd out) = probed w
    /\ written (snd out) = written w
    /\ exists k,
         sent (snd out)
         = (sent w
            ++ firstn k
                 (map (fun chat_id =>
                         mk_request POST (bot_url self ++ "/sendMessage")
                           (Some (SendMessage chat_id
                                    (delivery_text e msg with_host)
                                    "markdown" notify)))
                    (dict_keys (registered_chats self))))%list.
Proof.
  intros e self w msg with_host notify out.
  destruct (broadcast_loop_quiet msg with_host notify e self
              (registered_chats self) 0 0 w) as [Hp Hw].
  split; [|split].
  - unfold out, broadcast. rewrite bind_eq. cbn [get_self]. rewrite bind_eq.
    destruct (broadcast_loop _ _ _ _ _ _ e self w) as [[[c|x] s1] w1];
      exact Hp.
  - unfold out, broadcast. rewrite bind_eq. cbn [get_self]. rewrite bind_eq.
    destruct (broadcast_loop _ _ _ _ _ _ e self w) as [[[c|x] s1] w1];
      exact Hw.
  - apply broadcast_sends_notify.
Qed.

(** ** Further properties of photo retrieval *)


Lemma checked_get_request_ok {S : Type} (url : string) (data : option payload)
  (e : env) (s : S) (w : io) (res : http_response) :
  net e (List.length (sent w)) (mk_request GET url data) = NetResponse res ->
  status_code res = 200 ->
  checked_get_request url data e s w
  = (Ok res, s, record_sent w (mk_request GET url data)).
Proof.
  intros Hnet Hst.
  unfold checked_get_request, bind, http, raise, ret, record_sent.
  now rewrite Hnet, Hst.
Qed.

(** X9.  When "getFile" returns a file path, the download answers 200 and
    the target can be written, [download_photo_from_msg] returns the given
    path with the extension of the remote file appended and writes exactly
    one file, at that path, with the bytes of the download. *)
Theorem download_photo_writes_file :
  forall (e : env) (self : TGNotifier) (w : io) (msg : message)
         (path : string) (l : list photo_size) (fp : string)
         (res : http_response),
    msg_photo msg = Some l ->
    let file_id := snd (largest_photo l) in
    decoded (net e (List.length (sent w)) (getFile_request self file_id))
    = Some (JFile fp) ->
    net e (S (List.length (sent w))) (download_request self fp)
    = NetResponse res ->
    status_code res = 200 ->
    let full_path := path ++ snd (splitext e fp) in
    writable e full_path = true ->
    download_photo_from_msg msg path e self w
    = (Ok full_path, self,
       mk_io (sent w ++ [getFile_request self file_id;
                         download_request self fp])
         (logged w) (probed w)
         (written w ++ [(full_path, res_content res)]) (ensured w)).
Proof.
  intros e self w msg path l fp res Hl file_id Hfile Hnet Hst full_path
    Hwritable.
  unfold download_photo_from_msg. rewrite Hl. fold file_id.
  unfold getFile_request in Hfile.
  erewrite bind_Ok by (apply get_decoded; exact Hfile).
  erewrite bind_Ok by reflexivity.
  erewrite bind_Ok by reflexivity.
  erewrite bind_Ok by reflexivity.
  fold (getFile_request self file_id).
  fold (download_request self fp).
  erewrite bind_Ok.
  2:{ apply (checked_get_request_ok _ _ _ _ _ res); [|exact Hst].
      rewrite sent_record_sent. exact Hnet. }
  erewrite bind_Ok
    by (unfold write_file; fold full_path; rewrite Hwritable; reflexivity).
  unfold ret, record_sent. cbn [sent logged probed written ensured].
  now rewrite <- app_assoc.
Qed.

(** X21.  Under the same answers as in X9, when the target cannot be
    written [download_photo_from_msg] raises [OSError] after both requests
    and writes no file. *)
Theorem download_photo_unwritable :
  forall (e : env) (self : TGNotifier) (w : io) (msg : message)
         (path : string) (l : list photo_size) (fp : string)
         (res : http_response),
    msg_photo msg = Some l ->
    let file_id := snd (largest_photo l) in
    decoded (net e (List.length (sent w)) (getFile_request self file_id))
    = Some (JFile fp) ->
    net e (S (List.length (sent w))) (download_request self fp)
    = NetResponse res ->
    status_code res = 200 ->
    writable e (path ++ snd (splitext e fp)) = false ->
    download_photo_from_msg msg path e self w
    = (Raise OSError, self,
       mk_io (sent w ++ [getFile_request self file_id;
                         download_request self fp])
         (logged w) (probed w) (written w) (ensured w)).
Proof.
  intros e self w msg path l fp res Hl file_id Hfile Hnet Hst Hwritable.
  unfold download_photo_from_msg. rewrite Hl. fold file_id.
  unfold getFile_request in Hfile.
  erewrite bind_Ok by (apply get_decoded; exact Hfile).
  erewrite bind_Ok by reflexivity.
  erewrite bind_Ok by reflexivity.
  erewrite bind_Ok by reflexivity.
  fold (getFile_request self file_id).
  fold (download_request self fp).
  erewrite bind_Ok.
  2:{ apply (checked_get_request_ok _ _ _ _ _ res); [|exact Hst].
      rewrite sent_record_sent. exact Hnet. }
  erewrite bind_Raise
    by (unfold write_file; rewrite Hwritable; reflexivity).
  unfold record_sent. cbn [sent logged probed written ensured].
  now rewrite <- app_assoc.
Qed.

(** Witness for X21: the same photo on a read-only file system. *)
Lemma download_photo_unwritable_witness :
  fst (fst (download_photo_from_msg (photo_message two_equal_sizes) "/tmp/p"
              (read_only photo_env) (sample_notifier []) io0))
  = Raise OSError.
Proof.
  rewrite (download_photo_unwritable (read_only photo_env) (sample_notifier [])
             io0 (photo_message two_equal_sizes) "/tmp/p" two_equal_sizes
             "photos/file_1.jpg" (mk_response 200 None "JPEG")
             eq_refl eq_refl eq_refl eq_refl eq_refl).
  reflexivity.
Defined.

(** Witness for X9. *)
Lemma download_photo_writes_file_witness :
  download_photo_from_msg (photo_message two_equal_sizes) "/tmp/p" photo_env
    (sample_notifier []) io0
  = (Ok "/tmp/p", sample_notifier [],
     mk_io [getFile_request (sample_notifier []) (Some "a");
            download_request (sample_notifier []) "photos/file_1.jpg"]
       [] [] [("/tmp/p", "JPEG")] []).
Proof.
  apply (download_photo_writes_file photo_env (sample_notifier []) io0
           (photo_message two_equal_sizes) "/tmp/p" two_equal_sizes
           "photos/file_1.jpg" (mk_response 200 None "JPEG"));
    reflexivity.
Defined.



(** ** Properties of config loading *)

(** [get_config_file_path] sends and writes nothing, and with an explicit
    path it returns that path and has no effect at all. *)
Lemma get_config_file_path_run {S : Type} (cfp : option string) (e : env)
  (s : S) (w : io) :
  exists r w1,
    get_config_file_path cfp e s w = (r, s, w1)
    /\ sent w1 = sent w
    /\ written w1 = written w
    /\ (forall q, cfp = Some q -> r = Ok q /\ w1 = w).
Proof.
  destruct cfp as [q|].
  - exists (Ok q), w. repeat split; try reflexivity; now injection H as <-.
  - unfold get_config_file_path, bind, ask, os_path_isfile,
      xdg_save_config_path, ret, log, raise.
    destruct (xdg_import e) as [|x|save]; cbn [fst snd].
    + destruct (isfile e (path_join e (script_path e) "config.json"));
        cbn [andb fst snd sent logged probed written];
        do 2 eexists; (split; [reflexivity|]); repeat split; discriminate.
    + do 2 eexists. split; [reflexivity|]. repeat split; discriminate.
    + destruct (save "tgnotipy") as [dir|x]; cbn [fst snd].
      * destruct (isfile e (path_join e dir "config.json")),
          (isfile e (path_join e (script_path e) "config.json"));
          cbn [andb fst snd sent logged probed written];
          do 2 eexists; (split; [reflexivity|]); repeat split; discriminate.
      * do 2 eexists. split; [reflexivity|]. repeat split; discriminate.
Qed.

Lemma loaded_chats_str_keys (doc : list (string * string)) :
  Forall is_str_key (dict_keys (loaded_chats doc)).
Proof.
  unfold loaded_chats, dict_keys. rewrite map_map. apply Forall_forall.
  intros k Hk. apply in_map_iff in Hk. destruct Hk as (kv & <- & _).
  now eexists.
Qed.

(** X11.  [create] sends no request and writes no file.  With an explicit
    path it works on that path; an exception of the path resolution
    propagates.  At the resolved path, a missing file raises [TGException]
    naming the path; a config object without ["api_key"] or without
    ["registered_chats"] raises [TGException] "Incomplete config file!"; a
    complete one gives a notifier with that credential and those chats under
    [str] keys, cursor 0. *)
Theorem create_outcomes :
  forall (S : Type) (fs : files) (e : env) (s : S) (w : io)
         (cfp : option string),
    let resolved := fst (fst (get_config_file_path cfp e s w)) in
    let out := create fs cfp e s w in
    sent (snd out) = sent w
    /\ written (snd out) = written w
    /\ (forall q, cfp = Some q -> resolved = Ok q)
    /\ (forall x, resolved = Raise x -> fst (fst out) = Raise x)
    /\ (forall p,
          resolved = Ok p ->
          (open_json fs p = NoSuchFile ->
           fst (fst out)
           = Raise (TGException ("No config file found at '" ++ p ++ "'!")))
          /\ (forall k c,
                open_json fs p = ConfigObject k c ->
                k = None \/ c = None ->
                fst (fst out) = Raise (TGException "Incomplete config file!"))
          /\ (forall k c,
                open_json fs p = ConfigObject (Some k) (Some c) ->
                fst (fst out)
                = Ok {| config_file_path := p;
                        api_key := k;
                        bot_url := "https://api.telegram.org/bot" ++ k;
                        last_update_id := 0;
                        registered_chats := loaded_chats c |})).
Proof.
  intros S fs e s w cfp resolved out. subst resolved out.
  destruct (get_config_file_path_run cfp e s w)
    as (r & w1 & Hp & Hs & Hw & Hexp).
  rewrite Hp. cbn [fst]. unfold create.
  destruct r as [p|x].
  - erewrite bind_Ok by exact Hp.
    erewrite bind_Ok by reflexivity.
    split; [|split; [|split; [|split]]].
    + destruct (open_json fs p) as [| |[k|] [c|]]; exact Hs.
    + destruct (open_json fs p) as [| |[k|] [c|]]; exact Hw.
    + intros q Hq. now destruct (Hexp q Hq).
    + discriminate.
    + intros p' [= <-]. split; [|split].
      * now intros ->.
      * intros k c -> [->| ->]; [reflexivity | now destruct k].
      * now intros k c ->.
  - erewrite bind_Raise by exact Hp.
    split; [exact Hs|]. split; [exact Hw|]. split; [|split].
    + intros q Hq. now destruct (Hexp q Hq).
    + now intros x' [= <-].
    + discriminate.
Qed.

(** Witness for X11: a config file without ["registered_chats"]. *)
Lemma create_outcomes_witness :
  fst (fst (create (sample_files "/etc/tg.json" (ConfigObject (Some "KEY") None))
              (Some "/etc/tg.json") (sample_env [] false always_ok) tt io0))
  = Raise (TGException "Incomplete config file!").
Proof.
  destruct (create_outcomes unit
              (sample_files "/etc/tg.json" (ConfigObject (Some "KEY") None))
              (sample_env [] false always_ok) tt io0 (Some "/etc/tg.json"))
    as (_ & _ & _ & _ & Hres).
  destruct (Hres "/etc/tg.json" eq_refl) as (_ & Hinc & _).
  apply (Hinc (Some "KEY") None); [reflexivity | now right].
Defined.

(** Merging entries under keys that are all new appends them. *)
Lemma dict_update_disjoint (other : dict) :
  forall d,
    NoDup (dict_keys other) ->
    (forall k, In k (dict_keys other) -> ~ In k (dict_keys d)) ->
    dict_update d other = (d ++ other)%list.
Proof.
  induction other as [|[k v] other IH]; intros d Hnd Hdis.
  - simpl. now rewrite app_nil_r.
  - rewrite dict_update_cons. simpl in Hnd.
    inversion Hnd as [|? ? Hnot Hrest]; subst.
    rewrite dict_set_absent by (apply Hdis; now left).
    rewrite IH; [now rewrite <- app_assoc | exact Hrest |].
    intros k' Hk' Hin. unfold dict_keys in Hin.
    rewrite map_app, in_app_iff in Hin. destruct Hin as [Hin|[<-|[]]].
    + apply (Hdis k'); [now right | exact Hin].
    + now apply Hnot.
Qed.

(** X12.  On a registry whose keys are all [str], as every registry loaded
    by [create] is, [add_recent_chats] never replaces an entry: whatever the
    network answers, the registry afterwards is the old registry followed by
    the discovered entries, whose keys are [int]. *)
Theorem add_recent_chats_appends_to_loaded :
  forall (e : env) (self : TGNotifier) (w : io),
    Forall is_str_key (dict_keys (registered_chats self)) ->
    let out := add_recent_chats e self w in
    exists merged,
      registered_chats (snd (fst out))
      = (registered_chats self ++ merged)%list
      /\ Forall is_int_key (dict_keys merged)
      /\ (forall new, fst (fst out) = Ok new -> merged = new).
Proof.
  intros e self w Hstr out.
  destruct (add_recent_chats_run e self w)
    as (r & c & merged & w' & Hrun & _ & Hnew & Hnd & Hint & _).
  exists merged. unfold out. rewrite Hrun. cbn [fst snd registered_chats].
  split; [|split; [exact Hint | exact Hnew]].
  apply dict_update_disjoint; [exact Hnd|].
  intros k Hk Hin. rewrite Forall_forall in Hstr, Hint.
  destruct (Hint k Hk) as [z ->]. destruct (Hstr _ Hin) as [s' Hs].
  discriminate Hs.
Qed.

(** Witness for X12: the file knows chat "7" as "Old"; a message from chat 7
    adds a second entry. *)
Lemma add_recent_chats_appends_to_loaded_witness :
  registered_chats
    (snd (fst (add_recent_chats (updates_env [plain_update 1 7 "Ann"])
                 (sample_notifier (loaded_chats [("7", "Old")])) io0)))
  = [(KStr "7", "Old"); (KInt 7, "Ann <no last name> (@<no username>)")].
Proof.
  destruct (add_recent_chats_appends_to_loaded
              (updates_env [plain_update 1 7 "Ann"])
              (sample_notifier (loaded_chats [("7", "Old")])) io0
              (loaded_chats_str_keys [("7", "Old")]))
    as (merged & Hreg & _ & Hnew).
  rewrite Hreg.
  rewrite (Hnew [(KInt 7, "Ann <no last name> (@<no username>)")] eq_refl).
  reflexivity.
Defined.

(** ** Properties of the command line *)

Lemma on_object_Ok {S A : Type} (tgn tgn' : TGNotifier) (m : M TGNotifier A)
  (e : env) (s : S) (w w' : io) (a : A) :
  m e tgn w = (Ok a, tgn', w') ->
  on_object tgn m e s w = (Ok (a, tgn'), s, w').
Proof. unfold on_object. now intros ->. Qed.

Lemma on_object_Raise {S A : Type} (tgn tgn' : TGNotifier) (m : M TGNotifier A)
  (e : env) (s : S) (w w' : io) (x : exn) :
  m e tgn w = (Raise x, tgn', w') ->
  on_object tgn m e s w = (Raise x, s, w').
Proof. unfold on_object. now intros ->. Qed.

Lemma print_chats_run (chats : dict) :
  forall (e : env) (s : list string) (w : io),
    print_chats chats e s w
    = (Ok tt,
       (s ++ map chat_line chats)%list,
       w).
Proof.
  induction chats as [|[k name] rest IH]; intros e s w.
  - simpl. unfold ret. now rewrite app_nil_r.
  - cbn [print_chats]. erewrite bind_Ok by reflexivity.
    rewrite IH. cbn [map fst snd]. now rewrite <- app_assoc.
Qed.

Lemma create_loaded {S : Type} (fs : files) (p k : string)
  (c : list (string * string)) (e : env) (s : S) (w : io) :
  open_json fs p = ConfigObject (Some k) (Some c) ->
  create fs (Some p) e s w
  = (Ok (TGNotifier_init k p (loaded_chats c)), s,
     mk_io (sent w)
       (logged w ++ [(DEBUG, "Using config file at '" ++ p ++ "'")])
       (probed w) (written w) (ensured w)).
Proof.
  intros Hopen. unfold create.
  erewrite bind_Ok by reflexivity.
  erewrite bind_Ok by reflexivity.
  now rewrite Hopen.
Qed.

Lemma store_config_ok (fs : files) (e : env) (tgn : TGNotifier) (w : io) :
  writable e (config_file_path tgn) = true ->
  store_config fs e tgn w
  = (Ok tt, tgn,
     mk_io (sent w) (logged w) (probed w)
       (written w ++ [(config_file_path tgn,
                       json_dump fs (api_key tgn) (registered_chats tgn))])
       (ensured w)).
Proof.
  intros H. unfold store_config, bind, get_self, write_file. now rewrite H.
Qed.

Lemma store_config_fails (fs : files) (e : env) (tgn : TGNotifier) (w : io) :
  writable e (config_file_path tgn) = false ->
  store_config fs e tgn w = (Raise OSError, tgn, w).
Proof.
  intros H. unfold store_config, bind, get_self, write_file. now rewrite H.
Qed.

Lemma on_object_store {S : Type} (fs : files) (tgn : TGNotifier) (e : env)
  (s : S) (w : io) :
  exists r w',
    on_object tgn (store_config fs) e s w = (r, s, w')
    /\ sent w' = sent w.
Proof.
  unfold on_object, store_config, bind, get_self, write_file.
  destruct (writable e (config_file_path tgn)); do 2 eexists;
    split; reflexivity.
Qed.

(** The path [main] works with. *)
Lemma resolved_path {S : Type} (cfp : option string) (e : env) (s : S)
  (w : io) (p : string) :
  fst (fst (get_config_file_path cfp e s w)) = Ok p ->
  exists w1,
    get_config_file_path cfp e s w = (Ok p, s, w1)
    /\ sent w1 = sent w /\ written w1 = written w.
Proof.
  intros Hp.
  destruct (get_config_file_path_run cfp e s w) as (r & w1 & Hrun & Hs & Hw & _).
  rewrite Hrun in Hp. cbn [fst] in Hp. subst r. now exists w1.
Qed.

(** X13.  Without [--newconfig] and without a config file at the resolved
    path, [main] prints the hint to create one and exits with code 1; it
    sends no request and writes no file. *)
Theorem main_without_config_exits_1 :
  forall (fs : files) (args : cli_args) (e : env) (s : list string) (w : io)
         (p : string),
    args_newconfig args = None ->
    fst (fst (get_config_file_path (args_config args) e s w)) = Ok p ->
    isfile e p = false ->
    let out := main fs args e s w in
    fst (fst out) = Ok (Exit 1)
    /\ snd (fst out)
       = (s ++ ["Error: No config file found! Consider creating one with '--newconfig <API_KEY>'."])%list
    /\ sent (snd out) = sent w
    /\ written (snd out) = written w.
Proof.
  intros fs args e s w p Hnew Hp Hfile out.
  destruct (resolved_path _ _ _ _ _ Hp) as (w1 & Hrun & Hs & Hw).
  unfold out, main.
  erewrite bind_Ok by exact Hrun. rewrite Hnew.
  erewrite bind_Ok by reflexivity. rewrite Hfile. cbn [negb].
  erewrite bind_Ok by reflexivity.
  cbn [ret fst snd sent written]. now repeat split.
Qed.

(** Witness for X13. *)
Lemma main_without_config_exits_1_witness :
  fst (fst (main (sample_files "/etc/tg.json" NoSuchFile) sample_args
              (sample_env [] false always_ok) [] io0))
  = Ok (Exit 1).
Proof.
  apply (main_without_config_exits_1 (sample_files "/etc/tg.json" NoSuchFile)
           sample_args (sample_env [] false always_ok) [] io0 "/etc/tg.json");
    reflexivity.
Defined.

(** X14.  With [--newconfig KEY], whatever the other flags and whether or
    not a config file exists, when the resolved path can be written [main]
    writes there a config with that credential and the registry a notifier
    built without one has (the shared default of [__init__], empty in a
    fresh interpreter), reads no config, sends no request, and exits with
    code 0. *)
Theorem main_newconfig_writes_default_registry :
  forall (fs : files) (args : cli_args) (e : env) (s : list string) (w : io)
         (p key : string),
    args_newconfig args = Some key ->
    fst (fst (get_config_file_path (args_config args) e s w)) = Ok p ->
    writable e p = true ->
    let out := main fs args e s w in
    fst (fst out) = Ok (Exit 0)
    /\ snd (fst out)
       = (s ++ [("New config created at '" ++ p ++ "'.")%string])%list
    /\ sent (snd out) = sent w
    /\ written (snd out)
       = (written w
          ++ [(p, json_dump fs key (default_registered_chats fs))])%list.
Proof.
  intros fs args e s w p key Hnew Hp Hwritable out.
  destruct (resolved_path _ _ _ _ _ Hp) as (w1 & Hrun & Hs & Hw).
  unfold out, main.
  erewrite bind_Ok by exact Hrun. rewrite Hnew.
  erewrite bind_Ok
    by (apply on_object_Ok; apply store_config_ok; exact Hwritable).
  erewrite bind_Ok by reflexivity.
  cbn [ret fst snd sent written]. rewrite Hw. now repeat split.
Qed.

(** Witness for X14: [--newconfig] together with [--find], in an interpreter
    whose default registry already holds a chat. *)
Lemma main_newconfig_writes_default_registry_witness :
  let args := mk_args [] (Some "/etc/tg.json") (Some "K2") true false false
                false in
  let out := main (used_default
                     (sample_files "/etc/tg.json"
                        (ConfigObject (Some "KEY") (Some [("1", "Alice")]))))
               args (sample_env ["/etc/tg.json"] false always_ok) [] io0 in
  fst (fst out) = Ok (Exit 0)
  /\ written (snd out)
     = [("/etc/tg.json", "K2:7=Ann <no last name> (@<no username>)")].
Proof.
  intros args out.
  destruct (main_newconfig_writes_default_registry
              (used_default
                 (sample_files "/etc/tg.json"
                    (ConfigObject (Some "KEY") (Some [("1", "Alice")]))))
              args (sample_env ["/etc/tg.json"] false always_ok) [] io0
              "/etc/tg.json" "K2" eq_refl eq_refl eq_refl)
    as (Hret & _ & _ & Hw).
  split; [exact Hret | exact Hw].
Defined.

(** X20.  With [--newconfig KEY], when the resolved path cannot be opened
    for writing, [main] raises [OSError]: it never reaches [exit(0)], prints
    nothing, writes nothing and sends nothing. *)
Theorem main_newconfig_unwritable_raises :
  forall (fs : files) (args : cli_args) (e : env) (s : list string) (w : io)
         (p key : string),
    args_newconfig args = Some key ->
    fst (fst (get_config_file_path (args_config args) e s w)) = Ok p ->
    writable e p = false ->
    let out := main fs args e s w in
    fst (fst out) = Raise OSError
    /\ snd (fst out) = s
    /\ sent (snd out) = sent w
    /\ written (snd out) = written w.
Proof.
  intros fs args e s w p key Hnew Hp Hwritable out.
  destruct (resolved_path _ _ _ _ _ Hp) as (w1 & Hrun & Hs & Hw).
  unfold out, main.
  erewrite bind_Ok by exact Hrun. rewrite Hnew.
  erewrite bind_Raise
    by (eapply on_object_Raise; apply store_config_fails; exact Hwritable).
  cbn [fst snd]. now repeat split.
Qed.

(** Witness for X20: the directory of the config path does not exist. *)
Lemma main_newconfig_unwritable_raises_witness :
  let args := mk_args [] (Some "/missing/config.json") (Some "K2") false false
                false false in
  fst (fst (main (sample_files "/etc/tg.json" NoSuchFile) args
              (read_only (sample_env [] false always_ok)) [] io0))
  = Raise OSError.
Proof.
  intros args.
  apply (main_newconfig_unwritable_raises
           (sample_files "/etc/tg.json" NoSuchFile) args
           (read_only (sample_env [] false always_ok)) [] io0
           "/missing/config.json" "K2"); reflexivity.
Defined.

(** X15.  With [--clear] (and neither [--newconfig], [--find] nor
    [--chats]) on a complete config file that can be written, [main] writes
    the config back with the credential it loaded and an empty registry,
    sends no request, and exits with code 0; when the file cannot be written
    it raises [OSError] instead and writes nothing. *)
Theorem main_clear_keeps_credential :
  forall (fs : files) (args : cli_args) (e : env) (s : list string) (w : io)
         (p k : string) (c : list (string * string)),
    args_newconfig args = None ->
    args_find args = false ->
    args_chats args = false ->
    args_clear args = true ->
    fst (fst (get_config_file_path (args_config args) e s w)) = Ok p ->
    isfile e p = true ->
    open_json fs p = ConfigObject (Some k) (Some c) ->
    let out := main fs args e s w in
    sent (snd out) = sent w
    /\ (writable e p = true ->
        fst (fst out) = Ok (Exit 0)
        /\ written (snd out) = (written w ++ [(p, json_dump fs k [])])%list)
    /\ (writable e p = false ->
        fst (fst out) = Raise OSError
        /\ written (snd out) = written w).
Proof.
  intros fs args e s w p k c Hnew Hfind Hchats Hclear Hp Hfile Hopen out.
  destruct (resolved_path _ _ _ _ _ Hp) as (w1 & Hrun & Hs & Hw).
  unfold out, main.
  erewrite bind_Ok by exact Hrun. rewrite Hnew.
  erewrite bind_Ok by reflexivity. rewrite Hfile. cbn [negb].
  erewrite bind_Ok by (apply create_loaded; exact Hopen).
  rewrite Hfind, Hchats, Hclear.
  erewrite bind_Ok by (apply on_object_Ok; reflexivity).
  cbn [fst snd].
  destruct (writable e p) eqn:Hwritable.
  - erewrite bind_Ok
      by (apply on_object_Ok; apply store_config_ok; exact Hwritable).
    erewrite bind_Ok by reflexivity.
    cbn [ret fst snd sent written config_file_path api_key registered_chats
           TGNotifier_init].
    rewrite Hw. split; [exact Hs|]. split; [now split | discriminate].
  - erewrite bind_Raise
      by (eapply on_object_Raise; apply store_config_fails; exact Hwritable).
    cbn [fst snd sent written]. rewrite Hw.
    split; [exact Hs|]. split; [discriminate | now split].
Qed.

(** Witness for X15. *)
Lemma main_clear_keeps_credential_witness :
  let args := mk_args [] (Some "/etc/tg.json") None false true false false in
  written
    (snd (main (sample_files "/etc/tg.json"
                  (ConfigObject (Some "KEY") (Some [("1", "Alice")])))
            args (sample_env ["/etc/tg.json"] false always_ok) [] io0))
  = [("/etc/tg.json", "KEY:")].
Proof.
  intros args.
  apply (proj1 (proj2 (main_clear_keeps_credential
           (sample_files "/etc/tg.json"
              (ConfigObject (Some "KEY") (Some [("1", "Alice")])))
           args (sample_env ["/etc/tg.json"] false always_ok) [] io0
           "/etc/tg.json" "KEY" [("1", "Alice")]
           eq_refl eq_refl eq_refl eq_refl eq_refl eq_refl eq_refl)));
    reflexivity.
Defined.

Lemma create_run {S : Type} (fs : files) (cfp : option string) (e : env)
  (s : S) (w : io) :
  exists r w',
    create fs cfp e s w = (r, s, w')
    /\ sent w' = sent w /\ written w' = written w.
Proof.
  destruct (get_config_file_path_run cfp e s w) as (r & w1 & Hp & Hs & Hw & _).
  unfold create.
  destruct r as [p|x].
  - erewrite bind_Ok by exact Hp.
    erewrite bind_Ok by reflexivity.
    destruct (open_json fs p) as [| |[k|] [c|]];
      do 2 eexists; (split; [reflexivity|]); split; assumption.
  - erewrite bind_Raise by exact Hp.
    do 2 eexists. split; [reflexivity|]. split; assumption.
Qed.

Lemma print_stderr_if (c : bool) (a b : string) (e : env) (s : list string)
  (w : io) :
  (if c then print_stderr a else print_stderr b) e s w
  = (Ok tt, (s ++ [if c then a else b])%list, w).
Proof. now destruct c. Qed.





(** The same run, computed: the entry "7" of the file stays and the
    discovered chat 7 is written after it. *)
Example main_find_writes_both_entries :
  let args := mk_args [] (Some "/etc/tg.json") None true false false false in
  let b := [plain_update 1 7 "Ann"; plain_update 2 7 "Anna"] in
  written
    (snd (main (sample_files "/etc/tg.json"
                  (ConfigObject (Some "KEY") (Some [("7", "Old")])))
            args (sample_env ["/etc/tg.json"] false (net (updates_env b)))
            [] io0))
  = [("/etc/tg.json", "KEY:7=Old,7=Anna <no last name> (@<no username>)")].
Proof. reflexivity. Qed.

Lemma broadcast_settled_run (e : env) (self : TGNotifier) (w : io)
  (msg : string) (with_host notify : bool) :
  let reqs := map (delivery_request e self msg with_host notify)
                (dict_keys (registered_chats self)) in
  forallb settled (answers e (List.length (sent w)) reqs) = true ->
  exists n lg,
    broadcast msg with_host notify e self w
    = (Ok n, self,
       mk_io (sent w ++ reqs) lg (probed w) (written w) (ensured w)).
Proof.
  intros reqs Hall.
  destruct (broadcast_loop_effects msg with_host notify e self
              (registered_chats self) 0 0 w Hall) as (c & Hc).
  unfold broadcast.
  erewrite bind_Ok by reflexivity.
  erewrite bind_Ok by exact Hc.
  erewrite bind_Ok by reflexivity.
  do 2 eexists. reflexivity.
Qed.

(** X17.  On the plain send path (no [--newconfig], [--find], [--chats] or
    [--clear]) with a complete config file, when every delivery either raises
    [TGException] or goes through, [main] attempts every loaded chat with the
    words of the message joined by newlines and the host tag, writes no file,
    and returns without an exit code, however many deliveries failed. *)
Theorem main_send_path_returns :
  forall (fs : files) (args : cli_args) (e : env) (s : list string) (w : io)
         (p k : string) (c : list (string * string)),
    args_newconfig args = None ->
    args_find args = false ->
    args_chats args = false ->
    args_clear args = false ->
    fst (fst (get_config_file_path (args_config args) e s w)) = Ok p ->
    isfile e p = true ->
    open_json fs p = ConfigObject (Some k) (Some c) ->
    let tgn := TGNotifier_init k p (loaded_chats c) in
    let reqs := map (delivery_request e tgn (str_join nl (args_msg args)) true
                       (negb (args_mute args)))
                  (dict_keys (loaded_chats c)) in
    forallb settled (answers e (List.length (sent w)) reqs) = true ->
    let out := main fs args e s w in
    fst (fst out) = Ok Returned
    /\ snd (fst out) = s
    /\ sent (snd out) = (sent w ++ reqs)%list
    /\ written (snd out) = written w.
Proof.
  intros fs args e s w p k c Hnew Hfind Hchats Hclear Hp Hfile Hopen tgn reqs
    Hall out.
  destruct (resolved_path _ _ _ _ _ Hp) as (w1 & Hrun & Hs & Hw).
  set (w2 := mk_io (sent w1)
               (logged w1 ++ [(DEBUG, "Using config file at '" ++ p ++ "'")%string])
               (probed w1 ++ [p]) (written w1) (ensured w1)).
  assert (Hall2 : forallb settled
                    (answers e (List.length (sent w2))
                       (map (delivery_request e tgn
                               (str_join nl (args_msg args)) true
                               (negb (args_mute args)))
                          (dict_keys (registered_chats tgn)))) = true).
  { change (sent w2) with (sent w1). rewrite Hs. exact Hall. }
  destruct (broadcast_settled_run e tgn w2 _ true _ Hall2) as (n & lg & Hbc).
  unfold out, main.
  erewrite bind_Ok by exact Hrun. rewrite Hnew.
  erewrite bind_Ok by reflexivity. rewrite Hfile. cbn [negb].
  erewrite bind_Ok by (apply create_loaded; exact Hopen).
  rewrite Hfind, Hchats, Hclear. fold w2. fold tgn.
  erewrite bind_Ok by (apply on_object_Ok; exact Hbc).
  cbn [ret fst snd sent written].
  change (sent w2) with (sent w1). change (written w2) with (written w1).
  rewrite Hs, Hw. now repeat split.
Qed.

(** Witness for X17: both deliveries answer 500, [main] still returns. *)
Lemma main_send_path_returns_witness :
  let out := main (sample_files "/etc/tg.json"
                     (ConfigObject (Some "KEY")
                        (Some [("1", "Alice"); ("2", "Bob")])))
               sample_args
               (sample_env ["/etc/tg.json"] false (net (status_env 500)))
               [] io0 in
  fst (fst out) = Ok Returned /\ List.length (sent (snd out)) = 2%nat.
Proof.
  intros out.
  destruct (main_send_path_returns
              (sample_files "/etc/tg.json"
                 (ConfigObject (Some "KEY")
                    (Some [("1", "Alice"); ("2", "Bob")])))
              sample_args
              (sample_env ["/etc/tg.json"] false (net (status_env 500)))
              [] io0 "/etc/tg.json" "KEY" [("1", "Alice"); ("2", "Bob")]
              eq_refl eq_refl eq_refl eq_refl eq_refl eq_refl eq_refl eq_refl)
    as (Hret & _ & Hsent & _).
  fold out in Hret, Hsent. split; [exact Hret|]. now rewrite Hsent.
Defined.

(** X18.  With [--newconfig], [--find], [--chats] or [--clear], whatever
    the files and the network, [main] delivers no message: every request it
    sends is a GET. *)
Theorem main_other_modes_deliver_nothing :
  forall (fs : files) (args : cli_args) (e : env) (s : list string) (w : io),
    args_newconfig args <> None \/ args_find args = true
    \/ args_chats args = true \/ args_clear args = true ->
    exists reqs,
      sent (snd (main fs args e s w)) = (sent w ++ reqs)%list
      /\ Forall (fun q => req_verb q = GET) reqs.
Proof.
  intros fs args e s w Hmode.
  assert (Hnone : forall w', sent w' = sent w ->
            exists reqs, sent w' = (sent w ++ reqs)%list
                         /\ Forall (fun q => req_verb q = GET) reqs).
  { intros w' H. exists []. rewrite app_nil_r. now split. }
  destruct (get_config_file_path_run (args_config args) e s w)
    as (r0 & w1 & Hrun & Hs & _ & _).
  unfold main.
  destruct r0 as [p|x0].
  2:{ erewrite bind_Raise by exact Hrun. apply Hnone. exact Hs. }
  erewrite bind_Ok by exact Hrun.
  destruct (args_newconfig args) as [key|].
  - match goal with
    | |- context [bind (on_object ?t (store_config fs)) _ e s ?w0] =>
        destruct (on_object_store fs t e s w0) as (r & w2 & Hst & Hs2)
    end.
    rewrite Hs in Hs2.
    destruct r as [a|x].
    + erewrite bind_Ok by exact Hst.
      erewrite bind_Ok by reflexivity.
      apply Hnone. exact Hs2.
    + erewrite bind_Raise by exact Hst. apply Hnone. exact Hs2.
  - erewrite bind_Ok by reflexivity.
    destruct (isfile e p); cbn [negb].
    2:{ erewrite bind_Ok by reflexivity. apply Hnone. exact Hs. }
    match goal with
    | |- context [bind (create fs (Some p)) _ e s ?w0] =>
        set (w2 := w0);
        destruct (create_run fs (Some p) e s w2) as (r & w3 & Hcreate & Hs3 & _)
    end.
    assert (Hs32 : sent w3 = sent w) by (rewrite Hs3; exact Hs).
    destruct r as [tgn|x].
    2:{ erewrite bind_Raise by exact Hcreate. apply Hnone. exact Hs32. }
    erewrite bind_Ok by exact Hcreate.
    destruct (args_find args).
    + destruct (add_recent_chats_run e tgn w3)
        as (r & c & merged & w4 & Hadd & _ & _ & _ & _ & _ & reqs & Hs4 & Hget).
      rewrite Hs32 in Hs4.
      destruct r as [new|x].
      * erewrite bind_Ok by (apply on_object_Ok; exact Hadd).
        cbn [fst snd].
        destruct (Z.of_nat (List.length (dict_keys new)) =? 0).
        -- erewrite bind_Ok by reflexivity. exists reqs. now split.
        -- erewrite bind_Ok by apply print_stderr_if.
           erewrite bind_Ok by apply print_chats_run.
           match goal with
           | |- context [bind (on_object ?t (store_config fs)) _ e ?s0 ?w0] =>
               destruct (on_object_store fs t e s0 w0) as (r & w5 & Hst & Hs5)
           end.
           rewrite Hs4 in Hs5.
           destruct r as [a|x].
           ++ erewrite bind_Ok by exact Hst.
              erewrite bind_Ok by reflexivity.
              exists reqs. now split.
           ++ erewrite bind_Raise by exact Hst. exists reqs. now split.
      * erewrite bind_Raise by (eapply on_object_Raise; exact Hadd).
        exists reqs. now split.
    + destruct (args_chats args).
      * erewrite bind_Ok by reflexivity.
        erewrite bind_Ok by apply print_chats_run.
        apply Hnone. exact Hs32.
      * destruct (args_clear args).
        -- erewrite bind_Ok by (apply on_object_Ok; reflexivity).
           match goal with
           | |- context [bind (on_object ?t (store_config fs)) _ e ?s0 ?w0] =>
               destruct (on_object_store fs t e s0 w0) as (r & w5 & Hst & Hs5)
           end.
           rewrite Hs32 in Hs5.
           destruct r as [a|x].
           ++ erewrite bind_Ok by exact Hst.
              erewrite bind_Ok by reflexivity.
              apply Hnone. exact Hs5.
           ++ erewrite bind_Raise by exact Hst. apply Hnone. exact Hs5.
        -- destruct Hmode as [H|[H|[H|H]]]; [now destruct H | | |];
             discriminate H.
Qed.

(** Witness for X18: [--find] sends the two "get updates" GETs only. *)
Lemma main_other_modes_deliver_nothing_witness :
  let args := mk_args ["hi"] (Some "/etc/tg.json") None true false false
                false in
  exists reqs,
    sent (snd (main (sample_files "/etc/tg.json"
                       (ConfigObject (Some "KEY") (Some [("1", "Alice")])))
                 args (sample_env ["/etc/tg.json"] false
                         (net (updates_env [plain_update 1 7 "Ann"])))
                 [] io0))
    = ([] ++ reqs)%list
    /\ Forall (fun q => req_verb q = GET) reqs.
Proof.
  intros args.
  apply (main_other_modes_deliver_nothing
           (sample_files "/etc/tg.json"
              (ConfigObject (Some "KEY") (Some [("1", "Alice")])))
           args (sample_env ["/etc/tg.json"] false
                   (net (updates_env [plain_update 1 7 "Ann"])))
           [] io0).
  right. left. reflexivity.
Defined.

(** X19.  With [--chats] (and neither [--newconfig] nor [--find]) on a
    complete config file, [main] prints a heading and one line per loaded
    entry in the order of the file, sends no request, writes no file, and
    exits with code 0. *)
Theorem main_chats_lists_registry :
  forall (fs : files) (args : cli_args) (e : env) (s : list string) (w : io)
         (p k : string) (c : list (string * string)),
    args_newconfig args = None ->
    args_find args = false ->
    args_chats args = true ->
    fst (fst (get_config_file_path (args_config args) e s w)) = Ok p ->
    isfile e p = true ->
    open_json fs p = ConfigObject (Some k) (Some c) ->
    let out := main fs args e s w in
    fst (fst out) = Ok (Exit 0)
    /\ snd (fst out)
       = (s ++ "Currently registered chats:"
            :: map (fun kv => ("  " ++ fst kv ++ ": " ++ snd kv)%string) c)%list
    /\ sent (snd out) = sent w
    /\ written (snd out) = written w.
Proof.
  intros fs args e s w p k c Hnew Hfind Hchats Hp Hfile Hopen out.
  destruct (resolved_path _ _ _ _ _ Hp) as (w1 & Hrun & Hs & Hw).
  unfold out, main.
  erewrite bind_Ok by exact Hrun. rewrite Hnew.
  erewrite bind_Ok by reflexivity. rewrite Hfile. cbn [negb].
  erewrite bind_Ok by (apply create_loaded; exact Hopen).
  rewrite Hfind, Hchats.
  erewrite bind_Ok by reflexivity.
  erewrite bind_Ok by apply print_chats_run.
  cbn [ret fst snd sent written registered_chats TGNotifier_init].
  split; [reflexivity|]. split; [|now split].
  rewrite <- app_assoc. cbn [app]. do 2 f_equal.
  unfold loaded_chats. rewrite map_map. reflexivity.
Qed.

(** Witness for X19. *)
Lemma main_chats_lists_registry_witness :
  let args := mk_args [] (Some "/etc/tg.json") None false false true false in
  snd (fst (main (sample_files "/etc/tg.json"
                    (ConfigObject (Some "KEY")
                       (Some [("1", "Alice"); ("2", "Bob")])))
              args (sample_env ["/etc/tg.json"] false always_ok) [] io0))
  = ["Currently registered chats:"; "  1: Alice"; "  2: Bob"].
Proof.
  intros args.
  apply (main_chats_lists_registry
           (sample_files "/etc/tg.json"
              (ConfigObject (Some "KEY") (Some [("1", "Alice"); ("2", "Bob")])))
           args (sample_env ["/etc/tg.json"] false always_ok) [] io0
           "/etc/tg.json" "KEY" [("1", "Alice"); ("2", "Bob")]); reflexivity.
Defined.
